(** * odevalidator: field rules, rule sets and batch validation

    A shallow embedding of [odevalidator/__init__.py].  The classes
    [Field] and [TestCase] become records, their methods become functions
    that take the receiver and hand it back as the call leaves it, and a
    Python exception becomes the [Raise] outcome of a [result].

    - Python integers are [Z], without the interpreter's optional limit on
      the number of digits converted to and from text.
    - [decimal.Decimal] values are a sign, a coefficient and an exponent,
      or an infinity or a NaN; construction from text and from integers,
      ordering and truncation are exact, as under the default context.
    - Text is ASCII.
    - What belongs to the interpreter and to other libraries and is not
      unfolded here ([json.loads], [dateutil.parser.parse], the operations
      of binary floating point, [repr] of a text) is a field of the class
      [Host]; each is a function of its arguments. *)

From Stdlib Require Import ZArith QArith Qpower Ascii SpecFloat.
From stdpp Require Import base strings list gmap pretty.

Open Scope Z_scope.

(** ** Outcomes of a call *)

Inductive exn : Type :=
| ValidatorException (msg : string)
| AttributeError
| TypeError
| ValueError
| KeyError
| OverflowError
| InvalidOperation
| JSONDecodeError.

Inductive result (A : Type) : Type :=
| Ok (a : A)
| Raise (e : exn).
Arguments Ok {A} a.
Arguments Raise {A} e.

Definition bind {A B} (m : result A) (k : A -> result B) : result B :=
  match m with
  | Ok a => k a
  | Raise e => Raise e
  end.

Notation "x <- m ;; k" := (bind m (fun x => k))
  (at level 100, m at next level, right associativity,
   format "x  <-  m  ;;  '/' k").

Definition is_Raise {A} (m : result A) : Prop :=
  match m with Raise _ => True | Ok _ => False end.

(** ** Text helpers *)

Module Text.

Definition is_digit (c : ascii) : bool :=
  let n := Ascii.N_of_ascii c in ((48 <=? n) && (n <=? 57))%N.

Definition digit_value (c : ascii) : N := (Ascii.N_of_ascii c - 48)%N.

(** [str.isspace] on ASCII: tab, newline, vertical tab, form feed,
    carriage return, the four separators 0x1c-0x1f and the space. *)
Definition is_whitespace (c : ascii) : bool :=
  let n := Ascii.N_of_ascii c in
  (((9 <=? n) && (n <=? 13)) || ((28 <=? n) && (n <=? 32)))%N.

Definition lower (c : ascii) : ascii :=
  let n := Ascii.N_of_ascii c in
  if ((65 <=? n) && (n <=? 90))%N then Ascii.ascii_of_N (n + 32) else c.

Fixpoint lowercase (s : string) : string :=
  match s with
  | EmptyString => EmptyString
  | String c s' => String (lower c) (lowercase s')
  end.

Fixpoint lstrip (s : string) : string :=
  match s with
  | String c s' => if is_whitespace c then lstrip s' else s
  | EmptyString => EmptyString
  end.

(** [s.strip()] *)
Definition strip (s : string) : string :=
  String.rev (lstrip (String.rev (lstrip s))).

(** [s.replace(c, "")] for a single character [c] *)
Fixpoint remove_char (x : ascii) (s : string) : string :=
  match s with
  | EmptyString => EmptyString
  | String c s' =>
      if Ascii.eqb c x then remove_char x s' else String c (remove_char x s')
  end.

(** The longest prefix of digits, read as a number, with its length and
    the rest of the text. *)
Fixpoint span_digits (acc : N) (len : nat) (s : string) : N * nat * string :=
  match s with
  | String c s' =>
      if is_digit c
      then span_digits (10 * acc + digit_value c)%N (S len) s'
      else (acc, len, s)
  | EmptyString => (acc, len, s)
  end.

(** [s.split(sep)] for a single-character separator: never empty, and
    adjacent separators give empty pieces. *)
Fixpoint split_go (sep : ascii) (cur : string) (s : string) : list string :=
  match s with
  | EmptyString => [String.rev cur]
  | String c s' =>
      if Ascii.eqb c sep
      then String.rev cur :: split_go sep EmptyString s'
      else split_go sep (String c cur) s'
  end.

Definition split (sep : ascii) (s : string) : list string :=
  split_go sep EmptyString s.

(** [sep.join(parts)] *)
Fixpoint join (sep : string) (parts : list string) : string :=
  match parts with
  | [] => ""
  | [p] => p
  | p :: ps => p +:+ sep +:+ join sep ps
  end.

Fixpoint is_prefix (p s : string) : bool :=
  match p, s with
  | EmptyString, _ => true
  | String a p', String b s' => Ascii.eqb a b && is_prefix p' s'
  | String _ _, EmptyString => false
  end.

(** [p in s] for two pieces of text: [p] occurs in [s]. *)
Fixpoint is_substring (p s : string) : bool :=
  is_prefix p s ||
  match s with
  | EmptyString => false
  | String _ s' => is_substring p s'
  end.

(** The one-character pieces a text yields when it is iterated. *)
Fixpoint chars (s : string) : list string :=
  match s with
  | EmptyString => []
  | String c s' => String c EmptyString :: chars s'
  end.

End Text.

(** ** [decimal.Decimal]

    Coefficients and exponents are unbounded, as in the module's
    reference implementation; its C implementation refuses exponents of
    more than eighteen digits. *)

Module Dec.

(** A finite value is [(-1)^negative * coefficient * 10^exponent]. *)
Inductive Decimal : Type :=
| Finite (negative : bool) (coefficient : N) (exponent : Z)
| Infinity (negative : bool)
| NaN (negative signaling : bool) (diagnostic : N).

Definition of_Z (n : Z) : Decimal :=
  Finite (n <? 0) (Z.abs_N n) 0.

Definition signed (negative : bool) (c : N) : Z :=
  if negative then - Z.of_N c else Z.of_N c.

(** Exact three-way comparison of the two values; [None] when one of
    them is a NaN. *)
Definition cmp (a b : Decimal) : option comparison :=
  match a, b with
  | NaN _ _ _, _ | _, NaN _ _ _ => None
  | Infinity sa, Infinity sb =>
      Some (match sa, sb with
            | true, false => Lt
            | false, true => Gt
            | _, _ => Eq
            end)
  | Infinity sa, Finite _ _ _ => Some (if sa then Lt else Gt)
  | Finite _ _ _, Infinity sb => Some (if sb then Gt else Lt)
  | Finite sa ca ea, Finite sb cb eb =>
      let m := Z.min ea eb in
      Some (signed sa ca * 10 ^ (ea - m) ?= signed sb cb * 10 ^ (eb - m))
  end.

(** [a > b] and [a < b] under the default context, whose trap for
    invalid operations is set: an ordering against a NaN raises. *)
Definition gt (a b : Decimal) : result bool :=
  match cmp a b with
  | None => Raise InvalidOperation
  | Some Gt => Ok true
  | Some _ => Ok false
  end.

Definition lt (a b : Decimal) : result bool :=
  match cmp a b with
  | None => Raise InvalidOperation
  | Some Lt => Ok true
  | Some _ => Ok false
  end.

(** The number a finite value stands for. *)
Definition value (d : Decimal) : option Q :=
  match d with
  | Finite s c e => Some (inject_Z (signed s c) * Qpower 10 e)%Q
  | _ => None
  end.

(** [int(d)]: truncation towards zero. *)
Definition to_int (d : Decimal) : result Z :=
  match d with
  | NaN _ _ _ => Raise ValueError
  | Infinity _ => Raise OverflowError
  | Finite s c e =>
      if 0 <=? e then Ok (signed s c * 10 ^ e)
      else Ok (Z.quot (signed s c) (10 ^ (- e)))
  end.

(** *** [Decimal(text)]

    The numeric-string syntax of the decimal module: surrounding
    whitespace is stripped and underscores are dropped, then
<<
    [sign] (digits [. [digits]] | . digits) [E [sign] digits]
    [sign] Inf[inity]
    [sign] [s]NaN [digits]
>>
    without regard to case. *)

Definition take_sign (s : string) : bool * string :=
  match s with
  | String "-" s' => (true, s')
  | String "+" s' => (false, s')
  | _ => (false, s)
  end.

Definition parse_exponent (s : string) : option Z :=
  match s with
  | EmptyString => Some 0
  | String c s' =>
      if Ascii.eqb (Text.lower c) "e" then
        let '(neg, ds) := take_sign s' in
        match Text.span_digits 0 0 ds with
        | (_, O, _) => None
        | (n, _, EmptyString) => Some (signed neg n)
        | _ => None
        end
      else None
  end.

Definition parse_number (negative : bool) (s : string) : option Decimal :=
  let '(ip, ilen, r) := Text.span_digits 0 0 s in
  let '(coeff, flen, r') :=
    match r with
    | String "." r1 =>
        let '(c, len, r2) := Text.span_digits ip 0 r1 in (c, len, r2)
    | _ => (ip, O, r)
    end in
  match (ilen + flen)%nat with
  | O => None
  | _ =>
      match parse_exponent r' with
      | Some e => Some (Finite negative coeff (e - Z.of_nat flen))
      | None => None
      end
  end.

Definition parse_nan (negative signaling : bool) (s : string) : option Decimal :=
  match Text.span_digits 0 0 s with
  | (n, _, EmptyString) => Some (NaN negative signaling n)
  | _ => None
  end.

Definition parse (s : string) : option Decimal :=
  let t := Text.remove_char "_" (Text.strip s) in
  let '(neg, body) := take_sign t in
  let l := Text.lowercase body in
  if String.eqb l "inf" || String.eqb l "infinity" then Some (Infinity neg)
  else if Text.is_prefix "nan" l
       then parse_nan neg false (String.substring 3 (String.length l) l)
  else if Text.is_prefix "snan" l
       then parse_nan neg true (String.substring 4 (String.length l) l)
  else parse_number neg body.

Definition of_str (s : string) : result Decimal :=
  match parse s with
  | Some d => Ok d
  | None => Raise InvalidOperation
  end.

End Dec.

(** ** Python values *)

(** What [json.loads] can produce.  A [dict] keeps its entries in
    insertion order and its keys are distinct; a lookup takes the first
    entry with the key. *)
#[warnings="-register-all"]
Inductive pyval : Type :=
| PNone
| PBool (b : bool)
| PInt (n : Z)
| PFloat (x : spec_float)
| PStr (s : string)
| PList (items : list pyval)
| PDict (entries : list (string * pyval)).

(** The sum of a number and an [int] is an [int] or a [float]. *)
Inductive number : Type :=
| NInt (n : Z)
| NFloat (x : spec_float).

(** The interpreter and the libraries the validator calls into. *)
Class Host : Type := {
  (** [json.loads(text)] *)
  json_loads : string -> result pyval;
  (** [dateutil.parser.parse(v)]: [None] when a date comes back,
      [Some (str(e))] when the parser raises [e] *)
  dateutil_parse : pyval -> option string;
  (** [repr(s)] of a text *)
  str_repr : string -> string;
  (** [str(section)] of an option-mapping *)
  config_str : gmap string string -> string;
  (** [repr(x)], [x + n], [x == y], [x == n] and [int(x)] of a float [x] *)
  float_repr : spec_float -> string;
  float_add_int : spec_float -> Z -> result spec_float;
  float_eqb : spec_float -> spec_float -> bool;
  float_eqb_int : spec_float -> Z -> bool;
  float_to_int : spec_float -> result Z;
  (** [Decimal(x)] of a float, which is exact, and of a list *)
  Decimal_of_float : spec_float -> Dec.Decimal;
  Decimal_of_list : list pyval -> result Dec.Decimal
}.

Module Py.
Section WithHost.
Context `{Host}.

(** [repr(v)] *)
Fixpoint repr (v : pyval) : string :=
  match v with
  | PNone => "None"
  | PBool true => "True"
  | PBool false => "False"
  | PInt n => pretty n
  | PFloat x => float_repr x
  | PStr s => str_repr s
  | PList items => "[" +:+ Text.join ", " (List.map repr items) +:+ "]"
  | PDict entries =>
      "{" +:+ Text.join ", "
                (List.map (fun kv => let '(k, v) := kv in
                                     str_repr k +:+ ": " +:+ repr v) entries)
          +:+ "}"
  end.

(** [str(v)] *)
Definition str (v : pyval) : string :=
  match v with
  | PStr s => s
  | _ => repr v
  end.

(** [v is None] *)
Definition is_None (v : pyval) : bool :=
  match v with PNone => true | _ => false end.

(** [v == s] for a text [s] *)
Definition eq_str (v : pyval) (s : string) : bool :=
  match v with PStr t => String.eqb t s | _ => false end.

Fixpoint dict_lookup (entries : list (string * pyval)) (key : string)
  : option pyval :=
  match entries with
  | [] => None
  | (k, v) :: rest => if String.eqb k key then Some v else dict_lookup rest key
  end.

(** [v.get(key)]: only a dict has the method. *)
Definition get (v : pyval) (key : string) : result pyval :=
  match v with
  | PDict entries =>
      Ok (match dict_lookup entries key with Some x => x | None => PNone end)
  | _ => Raise AttributeError
  end.

(** [v[key]] for a text [key] *)
Definition getitem (v : pyval) (key : string) : result pyval :=
  match v with
  | PDict entries =>
      match dict_lookup entries key with
      | Some x => Ok x
      | None => Raise KeyError
      end
  | _ => Raise TypeError
  end.

(** [Decimal(v)] *)
Definition Decimal (v : pyval) : result Dec.Decimal :=
  match v with
  | PBool b => Ok (Dec.of_Z (if b then 1 else 0))
  | PInt n => Ok (Dec.of_Z n)
  | PFloat x => Ok (Decimal_of_float x)
  | PStr s => Dec.of_str s
  | PList items => Decimal_of_list items
  | PNone | PDict _ => Raise TypeError
  end.

(** ['%d' % d] for a Decimal [d] *)
Definition fmt_d_Decimal (d : Dec.Decimal) : result string :=
  n <- Dec.to_int d ;; Ok (pretty n).

Definition fmt_d_number (x : number) : result string :=
  match x with
  | NInt n => Ok (pretty n)
  | NFloat f => n <- float_to_int f ;; Ok (pretty n)
  end.

Definition as_number (v : pyval) : option number :=
  match v with
  | PBool b => Some (NInt (if b then 1 else 0))
  | PInt n => Some (NInt n)
  | PFloat x => Some (NFloat x)
  | _ => None
  end.

(** ['%d' % v] *)
Definition fmt_d (v : pyval) : result string :=
  match as_number v with
  | Some x => fmt_d_number x
  | None => Raise TypeError
  end.

(** [v + n] for an int [n] *)
Definition add_int (v : pyval) (n : Z) : result number :=
  match as_number v with
  | Some (NInt m) => Ok (NInt (m + n))
  | Some (NFloat x) => y <- float_add_int x n ;; Ok (NFloat y)
  | None => Raise TypeError
  end.

Definition number_eqb (a b : number) : bool :=
  match a, b with
  | NInt m, NInt n => m =? n
  | NFloat x, NInt n | NInt n, NFloat x => float_eqb_int x n
  | NFloat x, NFloat y => float_eqb x y
  end.

(** [v != x] for a number [x] *)
Definition ne_number (v : pyval) (x : number) : bool :=
  match as_number v with
  | Some a => negb (number_eqb a x)
  | None => true
  end.

(** [s in container] for a text [s] *)
Definition contains (container : pyval) (s : string) : result bool :=
  match container with
  | PList items => Ok (existsb (fun item => eq_str item s) items)
  | PStr t => Ok (Text.is_substring s t)
  | PDict entries => Ok (existsb (fun kv => String.eqb kv.1 s) entries)
  | _ => Raise TypeError
  end.

(** [map(str, container)] *)
Definition iter_str (container : pyval) : result (list string) :=
  match container with
  | PList items => Ok (List.map str items)
  | PStr t => Ok (Text.chars t)
  | PDict entries => Ok (List.map fst entries)
  | _ => Raise TypeError
  end.

(** [int(text)]: optional sign, then digits that single underscores may
    separate, whitespace around it ignored. *)
Fixpoint int_digits (acc : N) (after_digit : bool) (s : string) : option N :=
  match s with
  | EmptyString => if after_digit then Some acc else None
  | String c s' =>
      if Text.is_digit c
      then int_digits (10 * acc + Text.digit_value c)%N true s'
      else if Ascii.eqb c "_" && after_digit then int_digits acc false s'
      else None
  end.

Definition int (s : string) : result Z :=
  let '(neg, body) := Dec.take_sign (Text.strip s) in
  match int_digits 0 false body with
  | Some n => Ok (Dec.signed neg n)
  | None => Raise ValueError
  end.

End WithHost.
End Py.

(** ** The validator *)

Definition TYPE_DECIMAL : string := "decimal".
Definition TYPE_ENUM : string := "enum".
Definition TYPE_TIMESTAMP : string := "timestamp".
Definition TYPE_STRING : string := "string".

Record ValidationResult : Type := mkValidationResult {
  valid : bool;
  error : string
}.

(** An instance of [Field].  An attribute the constructor sets only under
    a condition is an [option]: [hasattr(self, a)] is [a self <> None].
    Only [previous_value] is ever assigned after construction. *)
Record Field : Type := mkField {
  path : string;
  type : string;
  upper_limit : option Dec.Decimal;
  lower_limit : option Dec.Decimal;
  values : option pyval;
  increment : option Z;
  equals_value : option string;
  previous_value : option pyval
}.

(** [self.previous_value = v] *)
Definition set_previous_value (self : Field) (v : pyval) : Field :=
  {| path := path self; type := type self;
     upper_limit := upper_limit self; lower_limit := lower_limit self;
     values := values self; increment := increment self;
     equals_value := equals_value self; previous_value := Some v |}.

(** One entry of the list [_validate] returns. *)
Record FieldValidation : Type := mkFieldValidation {
  Field_ : string;
  Valid : bool;
  Details : string
}.

Record RecordReport : Type := mkRecordReport {
  RecordID : string;
  Validations : list FieldValidation
}.

Record BatchReport : Type := mkBatchReport {
  Results : list RecordReport
}.

Record TestCase : Type := mkTestCase {
  field_list : list Field
}.

Section Validator.
Context `{Host}.

(** *** [Field.__init__]

    [field] is one section of the configuration, read through
    [field.get(key)], which gives the text of an option or [None]. *)
Definition Field_init (field : gmap string string) : result Field :=
  match field !! "Path" with
  | None =>
      Raise (ValidatorException
               ("Missing required configuration property 'Path' for field '"
                  +:+ config_str field +:+ "'"))
  | Some path_ =>
  match field !! "Type" with
  | None =>
      Raise (ValidatorException
               ("Missing required configuration property 'Type' for field '"
                  +:+ config_str field +:+ "'"))
  | Some type_ =>
  upper <- match field !! "UpperLimit" with
           | Some upper_limit => d <- Dec.of_str upper_limit ;; Ok (Some d)
           | None => Ok None
           end ;;
  lower <- match field !! "LowerLimit" with
           | Some lower_limit => d <- Dec.of_str lower_limit ;; Ok (Some d)
           | None => Ok None
           end ;;
  vals <- match field !! "Values" with
          | Some values => v <- json_loads values ;; Ok (Some v)
          | None => Ok None
          end ;;
  incr <- match field !! "Increment" with
          | Some increment => n <- Py.int increment ;; Ok (Some n)
          | None => Ok None
          end ;;
  Ok {| path := path_; type := type_;
        upper_limit := upper; lower_limit := lower;
        values := vals; increment := incr;
        equals_value := field !! "EqualsValue";
        previous_value := None |}
  end
  end.

(** *** [Field._get_field_value] *)

(** The loop [for key in path_keys: value = value.get(key)]. *)
Fixpoint descend (path_keys : list string) (value : pyval) : result pyval :=
  match path_keys with
  | [] => Ok value
  | key :: rest => value' <- Py.get value key ;; descend rest value'
  end.

Definition _get_field_value (self : Field) (data : pyval) : result pyval :=
  match descend (Text.split "." (path self)) data with
  | Raise AttributeError =>
      Raise (ValidatorException
               ("Could not find field with path '" +:+ path self
                  +:+ "' in message: '" +:+ Py.str data +:+ "'"))
  | r => r
  end.

(** *** [Field.validate]

    The conditions of the [if] statements, in the order of the body.
    Each is a [result]: evaluating it can raise. *)

(** [hasattr(self, 'upper_limit') and Decimal(field_value) > self.upper_limit] *)
Definition above_upper_limit (self : Field) (field_value : pyval) : result bool :=
  match upper_limit self with
  | Some limit => d <- Py.Decimal field_value ;; Dec.gt d limit
  | None => Ok false
  end.

(** [hasattr(self, 'lower_limit') and Decimal(field_value) < self.lower_limit] *)
Definition below_lower_limit (self : Field) (field_value : pyval) : result bool :=
  match lower_limit self with
  | Some limit => d <- Py.Decimal field_value ;; Dec.lt d limit
  | None => Ok false
  end.

(** [hasattr(self, 'values') and str(field_value) not in self.values] *)
Definition not_in_values (self : Field) (field_value : pyval) : result bool :=
  match values self with
  | Some vals => b <- Py.contains vals (Py.str field_value) ;; Ok (negb b)
  | None => Ok false
  end.

(** [hasattr(self, 'equals_value') and str(field_value) != str(self.equals_value)] *)
Definition not_equals_value (self : Field) (field_value : pyval) : bool :=
  match equals_value self with
  | Some expected => negb (String.eqb (Py.str field_value) expected)
  | None => false
  end.

(** The messages, each the [%]-formatting of its line. *)
Definition msg_missing (self : Field) : string :=
  "Field '" +:+ path self +:+ "' missing".

Definition msg_empty (self : Field) : string :=
  "Field '" +:+ path self +:+ "' empty".

Definition msg_upper (self : Field) (field_value : pyval) (limit : Dec.Decimal)
  : result string :=
  d <- Py.Decimal field_value ;;
  v <- Py.fmt_d_Decimal d ;;
  l <- Py.fmt_d_Decimal limit ;;
  Ok ("Field '" +:+ path self +:+ "' value '" +:+ v
        +:+ "' is greater than upper limit '" +:+ l +:+ "'").

Definition msg_lower (self : Field) (field_value : pyval) (limit : Dec.Decimal)
  : result string :=
  d <- Py.Decimal field_value ;;
  v <- Py.fmt_d_Decimal d ;;
  l <- Py.fmt_d_Decimal limit ;;
  Ok ("Field '" +:+ path self +:+ "' value '" +:+ v
        +:+ "' is less than lower limit '" +:+ l +:+ "'").

Definition msg_values (self : Field) (field_value : pyval) (vals : pyval)
  : result string :=
  known <- Py.iter_str vals ;;
  Ok ("Field '" +:+ path self +:+ "' value '" +:+ Py.str field_value
        +:+ "' not in list of known values: [" +:+ Text.join ", " known +:+ "]").

Definition msg_equals (self : Field) (field_value : pyval) (expected : string)
  : string :=
  "Field '" +:+ path self +:+ "' value '" +:+ Py.str field_value
    +:+ "' did not equal expected value '" +:+ expected +:+ "'".

Definition msg_successor (self : Field) (field_value previous : pyval) (step : Z)
  : result string :=
  expected <- Py.add_int previous step ;;
  v <- Py.fmt_d field_value ;;
  e <- Py.fmt_d_number expected ;;
  Ok ("Field '" +:+ path self +:+ "' successor value '" +:+ v
        +:+ "' did not match expected value '" +:+ e
        +:+ "', increment '" +:+ pretty step +:+ "'").

Definition msg_timestamp (self : Field) (e : string) : string :=
  "Field '" +:+ path self
    +:+ "' value could not be parsed as a timestamp, error: " +:+ e.

Definition invalid (msg : string) : ValidationResult :=
  mkValidationResult false msg.

(** The last statements of the body: the timestamp check and the final
    [return]. *)
Definition validate_timestamp (self : Field) (field_value : pyval)
  : ValidationResult :=
  if String.eqb (type self) TYPE_TIMESTAMP then
    match dateutil_parse field_value with
    | Some e => invalid (msg_timestamp self e)
    | None => mkValidationResult true ""
    end
  else mkValidationResult true "".

(** [self.a] for an attribute that may not have been set *)
Definition attr {A} (a : option A) : result A :=
  match a with
  | Some x => Ok x
  | None => Raise AttributeError
  end.

(** The method returns the receiver as the call leaves it, and the
    value returned or the exception raised. *)
Definition validate (self : Field) (data : pyval)
  : Field * result ValidationResult :=
  match _get_field_value self data with
  | Raise e => (self, Raise e)
  | Ok field_value =>
  if Py.is_None field_value then (self, Ok (invalid (msg_missing self)))
  else if Py.eq_str field_value "" then (self, Ok (invalid (msg_empty self)))
  else
  match above_upper_limit self field_value with
  | Raise e => (self, Raise e)
  | Ok true =>
      (self, limit <- attr (upper_limit self) ;;
             msg <- msg_upper self field_value limit ;;
             Ok (invalid msg))
  | Ok false =>
  match below_lower_limit self field_value with
  | Raise e => (self, Raise e)
  | Ok true =>
      (self, limit <- attr (lower_limit self) ;;
             msg <- msg_lower self field_value limit ;;
             Ok (invalid msg))
  | Ok false =>
  match not_in_values self field_value with
  | Raise e => (self, Raise e)
  | Ok true =>
      (self, vals <- attr (values self) ;;
             msg <- msg_values self field_value vals ;;
             Ok (invalid msg))
  | Ok false =>
  if not_equals_value self field_value then
      (self, expected <- attr (equals_value self) ;;
             Ok (invalid (msg_equals self field_value expected)))
  else
  match increment self with
  | Some step =>
      match previous_value self with
      | None =>
          let self := set_previous_value self field_value in
          (self, Ok (validate_timestamp self field_value))
      | Some previous =>
          match Py.add_int previous step with
          | Raise e => (self, Raise e)
          | Ok expected =>
              if Py.ne_number field_value expected then
                match msg_successor self field_value previous step with
                | Raise e => (self, Raise e)
                | Ok msg =>
                    let result := invalid msg in
                    let self := set_previous_value self field_value in
                    (self, Ok result)
                end
              else (self, Ok (validate_timestamp self field_value))
          end
      end
  | None => (self, Ok (validate_timestamp self field_value))
  end
  end
  end
  end
  end.

(** *** [TestCase.__init__]

    [sections] is what the configuration parser holds after reading the
    file: the section names in order, each with its options. *)
Fixpoint build_field_list (sections : list (string * gmap string string))
  : result (list Field) :=
  match sections with
  | [] => Ok []
  | (key, options) :: rest =>
      if String.eqb key "_settings" then build_field_list rest
      else
        f <- Field_init options ;;
        fs <- build_field_list rest ;;
        Ok (f :: fs)
  end.

Definition TestCase_init (sections : list (string * gmap string string))
  : result TestCase :=
  fs <- build_field_list sections ;; Ok (mkTestCase fs).

(** *** [TestCase._validate]

    The loop over [self.field_list].  Each field comes back as its
    [validate] left it; when one raises, the fields after it have not
    been visited. *)
Fixpoint validate_fields (fields : list Field) (data : pyval)
  : list Field * result (list FieldValidation) :=
  match fields with
  | [] => ([], Ok [])
  | field :: rest =>
      match validate field data with
      | (field', Raise e) => (field' :: rest, Raise e)
      | (field', Ok result) =>
          let entry := {| Field_ := path field';
                          Valid := valid result;
                          Details := error result |} in
          match validate_fields rest data with
          | (rest', Raise e) => (field' :: rest', Raise e)
          | (rest', Ok validations) => (field' :: rest', Ok (entry :: validations))
          end
      end
  end.

Definition _validate (self : TestCase) (data : pyval)
  : TestCase * result (list FieldValidation) :=
  let '(fields, r) := validate_fields (field_list self) data in
  (mkTestCase fields, r).

(** *** [TestCase.validate_queue]

    The queue is the list of the serialized records still in it, the
    next one to come out first. *)

(** [str(current_msg['metadata']['serialId']['recordId'])] *)
Definition record_id_of (current_msg : pyval) : result string :=
  metadata <- Py.getitem current_msg "metadata" ;;
  serialId <- Py.getitem metadata "serialId" ;;
  recordId <- Py.getitem serialId "recordId" ;;
  Ok (Py.str recordId).

(** The [while] loop; [results] is the list built so far.  It gives back
    the test case and the queue as the call leaves them. *)
Fixpoint drain (self : TestCase) (msg_queue : list string)
    (results : list RecordReport)
  : TestCase * list string * result (list RecordReport) :=
  match msg_queue with
  | [] => (self, [], Ok results)
  | msg :: msg_queue' =>
      match json_loads msg with
      | Raise e => (self, msg_queue', Raise e)
      | Ok current_msg =>
      match record_id_of current_msg with
      | Raise e => (self, msg_queue', Raise e)
      | Ok record_id =>
      match _validate self current_msg with
      | (self', Raise e) => (self', msg_queue', Raise e)
      | (self', Ok field_validations) =>
          drain self' msg_queue'
            (results ++ [{| RecordID := record_id;
                            Validations := field_validations |}])
      end
      end
      end
  end.

Definition validate_queue (self : TestCase) (msg_queue : list string)
  : TestCase * list string * result BatchReport :=
  match drain self msg_queue [] with
  | (self', msg_queue', Ok results) => (self', msg_queue', Ok (mkBatchReport results))
  | (self', msg_queue', Raise e) => (self', msg_queue', Raise e)
  end.

End Validator.

(** ** Calling [validate] record after record *)

Section Feed.
Context `{Host}.

(** The results of [self.validate(r)] for each record [r] in turn, and
    the field as the last call leaves it. *)
Fixpoint feed (self : Field) (records : list pyval)
  : Field * list (result ValidationResult) :=
  match records with
  | [] => (self, [])
  | r :: rest =>
      let '(self', out) := validate self r in
      let '(self'', outs) := feed self' rest in
      (self'', out :: outs)
  end.

End Feed.

(** The field with its sequence state replaced: what two states of one
    rule have in common is [with_previous_value self None]. *)
Definition with_previous_value (self : Field) (pv : option pyval) : Field :=
  {| path := path self; type := type self;
     upper_limit := upper_limit self; lower_limit := lower_limit self;
     values := values self; increment := increment self;
     equals_value := equals_value self; previous_value := pv |}.

Definition same_rule (a b : Field) : Prop :=
  with_previous_value a None = with_previous_value b None.

(** ** The checks of [validate], one by one

    Each [if] statement of the body of [Field.validate] taken on its own,
    and the order in which the specification lists them. *)

Section Checks.
Context `{Host}.

(** A check looks at the extracted value: it passes ([None]) or fails
    with the reason to report, or raises; it hands back the field as it
    leaves it. *)
Definition check : Type := Field -> pyval -> Field * result (option string).

Definition stateless (c : Field -> pyval -> result (option string)) : check :=
  fun self v => (self, c self v).

Definition check_missing : check :=
  stateless (fun self v =>
    Ok (if Py.is_None v then Some (msg_missing self) else None)).

Definition check_empty : check :=
  stateless (fun self v =>
    Ok (if Py.eq_str v "" then Some (msg_empty self) else None)).

Definition check_upper_limit : check :=
  stateless (fun self v =>
    match upper_limit self with
    | None => Ok None
    | Some limit =>
        d <- Py.Decimal v ;;
        above <- Dec.gt d limit ;;
        if above then msg <- msg_upper self v limit ;; Ok (Some msg)
        else Ok None
    end).

Definition check_lower_limit : check :=
  stateless (fun self v =>
    match lower_limit self with
    | None => Ok None
    | Some limit =>
        d <- Py.Decimal v ;;
        below <- Dec.lt d limit ;;
        if below then msg <- msg_lower self v limit ;; Ok (Some msg)
        else Ok None
    end).

Definition check_values : check :=
  stateless (fun self v =>
    match values self with
    | None => Ok None
    | Some vals =>
        member <- Py.contains vals (Py.str v) ;;
        if member then Ok None
        else msg <- msg_values self v vals ;; Ok (Some msg)
    end).

Definition check_equals_value : check :=
  stateless (fun self v =>
    match equals_value self with
    | None => Ok None
    | Some expected =>
        Ok (if String.eqb (Py.str v) expected then None
            else Some (msg_equals self v expected))
    end).

Definition check_increment : check :=
  fun self v =>
    match increment self, previous_value self with
    | None, _ => (self, Ok None)
    | Some _, None => (set_previous_value self v, Ok None)
    | Some step, Some previous =>
        match Py.add_int previous step with
        | Raise e => (self, Raise e)
        | Ok expected =>
            if Py.ne_number v expected then
              match msg_successor self v previous step with
              | Raise e => (self, Raise e)
              | Ok msg => (set_previous_value self v, Ok (Some msg))
              end
            else (self, Ok None)
        end
    end.

Definition check_timestamp : check :=
  stateless (fun self v =>
    Ok (if String.eqb (type self) TYPE_TIMESTAMP then
          match dateutil_parse v with
          | Some e => Some (msg_timestamp self e)
          | None => None
          end
        else None)).

(** The checks in the order of the specification. *)
Definition checks_in_order : list check :=
  [ check_missing; check_empty; check_upper_limit; check_lower_limit;
    check_values; check_equals_value; check_increment; check_timestamp ].

(** Run the checks from the left and stop at the first that does not
    pass; valid with an empty reason when all of them pass. *)
Fixpoint first_failure (checks : list check) (self : Field) (v : pyval)
  : Field * result ValidationResult :=
  match checks with
  | [] => (self, Ok (mkValidationResult true ""))
  | c :: rest =>
      match c self v with
      | (self', Raise e) => (self', Raise e)
      | (self', Ok (Some msg)) => (self', Ok (invalid msg))
      | (self', Ok None) => first_failure rest self' v
      end
  end.


(** A check that hands the field back as it got it. *)
Definition keeps_field (c : check) : Prop :=
  forall self v, (c self v).1 = self.

(** A check that does not look at the sequence state of a field without
    an increment, nor changes it. *)
Definition ignores_state (c : check) : Prop :=
  forall self v,
    increment self = None ->
    c self v = (self, (c (with_previous_value self None) v).2).

(** A check that leaves the rule of the field alone. *)
Definition preserves_rule (c : check) : Prop :=
  forall self v, same_rule self (c self v).1.

End Checks.

(** ** What the reports and the errors say *)

Section Reports.
Context `{Host}.

(** The exception [_get_field_value] raises: it names the path and the
    record. *)
Definition traversal_error (self : Field) (data : pyval) : exn :=
  ValidatorException
    ("Could not find field with path '" +:+ path self
       +:+ "' in message: '" +:+ Py.str data +:+ "'").

(** [entry] is what [_validate] appends for [field]: its path and the
    result of [validate] on the record, in some sequence state of the
    field. *)
Definition reports_field (current_msg : pyval) (field : Field)
    (entry : FieldValidation) : Prop :=
  Field_ entry = path field
  /\ exists state,
       same_rule field state
       /\ (validate state current_msg).2
          = Ok (mkValidationResult (Valid entry) (Details entry)).

(** [report] is what [validate_queue] appends for the serialized record
    [msg]: the text of its identifier and one entry per field, in the
    order of the fields. *)
Definition reports_record (fields : list Field) (msg : string)
    (report : RecordReport) : Prop :=
  exists current_msg,
    json_loads msg = Ok current_msg
    /\ record_id_of current_msg = Ok (RecordID report)
    /\ Forall2 (reports_field current_msg) fields (Validations report).

(** No record of the queue makes anything raise: each one deserializes
    and carries an identifier, and no field raises on it in the sequence
    state the records before it have left. *)
Fixpoint raises_nowhere (fields : list Field) (msg_queue : list string) : Prop :=
  match msg_queue with
  | [] => True
  | msg :: rest =>
      exists current_msg record_id,
        json_loads msg = Ok current_msg
        /\ record_id_of current_msg = Ok record_id
        /\ Forall (fun field => exists r, (validate field current_msg).2 = Ok r)
                  fields
        /\ raises_nowhere
             (List.map (fun field => (validate field current_msg).1) fields) rest
  end.

(** A section whose upper or lower limit is not decimal text. *)
Definition bad_limit (field : gmap string string) : Prop :=
  (exists s, field !! "UpperLimit" = Some s /\ Dec.parse s = None)
  \/ (exists s, field !! "LowerLimit" = Some s /\ Dec.parse s = None).

End Reports.

(** ** Example data *)

Module Example.

Definition quote : string := String "034" EmptyString.

(** The JSON text of a value built from [null], booleans, integers,
    plain text, arrays and objects; the examples hold no float. *)
Fixpoint dumps (v : pyval) : string :=
  match v with
  | PNone => "null"
  | PBool true => "true"
  | PBool false => "false"
  | PInt n => pretty n
  | PFloat _ => "NaN"
  | PStr s => quote +:+ s +:+ quote
  | PList items => "[" +:+ Text.join ", " (List.map dumps items) +:+ "]"
  | PDict entries =>
      "{" +:+ Text.join ", "
                (List.map (fun kv => let '(k, x) := kv in
                                     quote +:+ k +:+ quote +:+ ": " +:+ dumps x)
                          entries)
          +:+ "}"
  end.

(** A record with identifier [id] and the given payload. *)
Definition message (id : Z) (payload : pyval) : pyval :=
  PDict [ ("metadata", PDict [("serialId", PDict [("recordId", PInt id)])]);
          ("payload", payload) ].

Definition speed (v : pyval) : pyval := PDict [("speed", v)].

(** The records the examples serialize. *)
Definition records : list pyval :=
  [ message 1 (speed (PInt 12));
    message 2 (speed (PInt 13));
    message 7 (PInt 3);
    message 8 (speed (PStr "fast"));
    PDict [] ].

(** A host for the examples.  It deserializes the texts of [records];
    the examples hold no float and configure no timestamp rule, so the
    operations on those are never consulted. *)
Definition host : Host := {|
  json_loads text :=
    match List.find (fun v => String.eqb (dumps v) text) records with
    | Some v => Ok v
    | None => Raise JSONDecodeError
    end;
  dateutil_parse _ := Some "not consulted";
  str_repr s := "'" +:+ s +:+ "'";
  config_str _ := "<Section: rule>";
  float_repr _ := "nan";
  float_add_int _ _ := Raise OverflowError;
  float_eqb _ _ := false;
  float_eqb_int _ _ := false;
  float_to_int _ := Raise ValueError;
  Decimal_of_float _ := Dec.NaN false false 0;
  Decimal_of_list _ := Raise ValueError
|}.

(** The record [{key: n}] *)
Definition record_int (key : string) (n : Z) : pyval := PDict [(key, PInt n)].

(** [Path = seq], [Type = decimal], [Increment = 1] *)
Definition increment_section : gmap string string :=
  {[ "Path" := "seq"; "Type" := "decimal"; "Increment" := "1" ]}.

Definition increment_rule : Field :=
  {| path := "seq"; type := "decimal";
     upper_limit := None; lower_limit := None; values := None;
     increment := Some 1; equals_value := None; previous_value := None |}.

(** [Path = payload.speed], [Type = decimal], with an upper or a lower
    limit of 100 *)
Definition upper_section : gmap string string :=
  {[ "Path" := "payload.speed"; "Type" := "decimal"; "UpperLimit" := "100" ]}.

Definition lower_section : gmap string string :=
  {[ "Path" := "payload.speed"; "Type" := "decimal"; "LowerLimit" := "100" ]}.

Definition limit_rule (upper lower : option Z) : Field :=
  {| path := "payload.speed"; type := "decimal";
     upper_limit := Dec.of_Z <$> upper; lower_limit := Dec.of_Z <$> lower;
     values := None; increment := None; equals_value := None;
     previous_value := None |}.

(** The test case with the one rule [UpperLimit = 100] *)
Definition speed_case : TestCase := mkTestCase [limit_rule (Some 100) None].

(** [Path = payload.speed], [Type = decimal], [Increment = 1], and the
    test case with this rule before the rule [UpperLimit = 100] *)
Definition step_rule : Field :=
  {| path := "payload.speed"; type := "decimal";
     upper_limit := None; lower_limit := None; values := None;
     increment := Some 1; equals_value := None; previous_value := None |}.

Definition sequence_case : TestCase :=
  mkTestCase [step_rule; limit_rule (Some 100) None].

(** A limit that is not decimal text *)
Definition bad_limit_section : gmap string string :=
  {[ "Path" := "payload.speed"; "Type" := "decimal"; "UpperLimit" := "fast" ]}.

End Example.

(** ** What the further properties speak of *)

(** An optional entry of a section and the attribute the constructor makes
    of it: both absent, or the entry converted. *)
Definition converted {A} (conv : string -> result A)
    (entry : option string) (attribute : option A) : Prop :=
  match entry, attribute with
  | None, None => True
  | Some s, Some a => conv s = Ok a
  | _, _ => False
  end.

(** The exception of the constructor for a required entry that is not
    there. *)
Definition missing_property `{Host} (key : string) (field : gmap string string)
  : exn :=
  ValidatorException
    ("Missing required configuration property '" +:+ key +:+ "' for field '"
       +:+ config_str field +:+ "'").

(** The sections that become fields. *)
Definition field_sections (sections : list (string * gmap string string))
  : list (string * gmap string string) :=
  filter (fun s => s.1 <> "_settings") sections.

(** The field with another declared type. *)
Definition with_type (self : Field) (t : string) : Field :=
  {| path := path self; type := t;
     upper_limit := upper_limit self; lower_limit := lower_limit self;
     values := values self; increment := increment self;
     equals_value := equals_value self; previous_value := previous_value self |}.

(** [c in s] for a character [c] *)
Fixpoint has_char (c : ascii) (s : string) : bool :=
  match s with
  | EmptyString => false
  | String a s' => Ascii.eqb a c || has_char c s'
  end.

(** The record that holds [v] under the keys, one dict inside the other. *)
Fixpoint nest (keys : list string) (v : pyval) : pyval :=
  match keys with
  | [] => v
  | key :: rest => PDict [(key, nest rest v)]
  end.

(** [entry] is the report of the record [msg] validated on its own,
    and the validation leaves the test case as it was. *)
Definition report_alone `{Host} (self : TestCase) (msg : string)
    (entry : RecordReport) : Prop :=
  validate_queue self [msg] = (self, [], Ok (mkBatchReport [entry])).

(** More example data *)

Module Sample.

Definition no_path_section : gmap string string :=
  {[ "Type" := "decimal" ]}.

Definition no_type_section : gmap string string :=
  {[ "Path" := "seq" ]}.

(** [Values] that is not JSON, [Increment] that is not an integer *)
Definition bad_values_section : gmap string string :=
  {[ "Path" := "kind"; "Type" := "enum"; "Values" := "[oops" ]}.

Definition bad_increment_section : gmap string string :=
  {[ "Path" := "seq"; "Type" := "decimal"; "Increment" := "one" ]}.

(** A configuration of three sections, and one with a bad section in the
    middle *)
Definition sections : list (string * gmap string string) :=
  [ ("_settings", ∅);
    ("speed", Example.upper_section);
    ("seq", Example.increment_section) ].

Definition bad_sections : list (string * gmap string string) :=
  [ ("speed", Example.upper_section);
    ("broken", Example.bad_limit_section);
    ("seq", Example.increment_section) ].

(** Rules on [payload.speed] with one constraint each *)
Definition values_rule (vals : pyval) : Field :=
  {| path := "payload.speed"; type := "enum";
     upper_limit := None; lower_limit := None; values := Some vals;
     increment := None; equals_value := None; previous_value := None |}.

Definition equals_rule (expected : string) : Field :=
  {| path := "payload.speed"; type := "string";
     upper_limit := None; lower_limit := None; values := None;
     increment := None; equals_value := Some expected; previous_value := None |}.

Definition sequence_rule (previous : option pyval) : Field :=
  {| path := "payload.speed"; type := "decimal";
     upper_limit := None; lower_limit := None; values := None;
     increment := Some 1; equals_value := None; previous_value := previous |}.

End Sample.

(** * Properties *)

Section Properties.
Context `{Host}.

(** ** The loop of [_get_field_value] *)

Lemma descend_app (pre post : list string) (value : pyval) :
  descend (pre ++ post) value = (v <- descend pre value ;; descend post v).
Proof.
  revert value. induction pre as [|key pre IH]; intros value; simpl.
  - reflexivity.
  - destruct (Py.get value key) as [value'|e]; simpl; [apply IH | reflexivity].
Qed.

Lemma descend_raises (path_keys : list string) (value : pyval) (e : exn) :
  descend path_keys value = Raise e -> e = AttributeError.
Proof.
  revert value. induction path_keys as [|key rest IH]; intros value; simpl.
  - discriminate.
  - destruct value; simpl; try (intros [= <-]; reflexivity); apply IH.
Qed.

Lemma get_field_value_Ok (self : Field) (data v : pyval) :
  descend (Text.split "." (path self)) data = Ok v ->
  _get_field_value self data = Ok v.
Proof. unfold _get_field_value. intros ->. reflexivity. Qed.

Lemma get_field_value_Raise (self : Field) (data : pyval) (e : exn) :
  descend (Text.split "." (path self)) data = Raise e ->
  _get_field_value self data =
    Raise (ValidatorException
             ("Could not find field with path '" +:+ path self
                +:+ "' in message: '" +:+ Py.str data +:+ "'")).
Proof.
  intros E. unfold _get_field_value.
  rewrite E, (descend_raises _ _ _ E). reflexivity.
Qed.

(** ** [validate] is its checks, run in order *)

Lemma validate_first_failure (self : Field) (data : pyval) :
  validate self data =
    match _get_field_value self data with
    | Raise e => (self, Raise e)
    | Ok v => first_failure checks_in_order self v
    end.
Proof.
  unfold validate.
  destruct (_get_field_value self data) as [v|e]; [|reflexivity].
  unfold checks_in_order, first_failure, check_missing, check_empty,
    check_upper_limit, check_lower_limit, check_values, check_equals_value,
    check_increment, check_timestamp, stateless,
    above_upper_limit, below_lower_limit, not_in_values, not_equals_value,
    validate_timestamp, attr.
  destruct (Py.is_None v); [reflexivity|].
  destruct (Py.eq_str v ""); [reflexivity|].
  (* the two limits *)
  destruct (Py.Decimal v) as [d|ed];
  destruct (upper_limit self) as [upper|]; simpl;
    try (destruct (Dec.gt d upper) as [[|]|]; simpl;
         [destruct (msg_upper self v upper); reflexivity | | reflexivity]);
    try reflexivity;
  (destruct (lower_limit self) as [lower|]; simpl;
    try (destruct (Dec.lt d lower) as [[|]|]; simpl;
         [destruct (msg_lower self v lower); reflexivity | | reflexivity]);
    try reflexivity);
  (* the allowed values and the expected value *)
  (destruct (values self) as [vals|]; simpl;
    try (destruct (Py.contains vals (Py.str v)) as [[|]|]; simpl;
         [ | destruct (msg_values self v vals); reflexivity | reflexivity]));
  (destruct (equals_value self) as [expected|]; simpl;
    try (destruct (String.eqb (Py.str v) expected); simpl; [|reflexivity]));
  (* the increment *)
  (destruct (increment self) as [step|], (previous_value self) as [previous|];
    simpl; try reflexivity;
    try (destruct (Py.add_int previous step) as [sum|]; simpl; [|reflexivity];
         destruct (Py.ne_number v sum); simpl;
         [destruct (msg_successor self v previous step); reflexivity|]));
  (* the timestamp *)
  destruct (String.eqb (type self) TYPE_TIMESTAMP); try reflexivity;
  destruct (dateutil_parse v); reflexivity.
Qed.




(** ** Which checks touch the field *)

Lemma stateless_keeps_field c : keeps_field (stateless c).
Proof. intros self v. reflexivity. Qed.



Lemma check_increment_same_rule (self : Field) (v : pyval) :
  same_rule self (check_increment self v).1.
Proof.
  unfold check_increment.
  repeat case_match; simpl; reflexivity.
Qed.

Lemma check_increment_unconfigured (self : Field) (v : pyval) :
  increment self = None -> check_increment self v = (self, Ok None).
Proof. unfold check_increment. intros ->. reflexivity. Qed.

(** ** The increment check: when it records the value

    It records the value on the first call and on a mismatch; when the
    value is the expected successor it leaves [previous_value] alone. *)

Lemma check_increment_baseline (self : Field) (v : pyval) (step : Z) :
  increment self = Some step -> previous_value self = None ->
  check_increment self v = (set_previous_value self v, Ok None).
Proof. unfold check_increment. intros -> ->. reflexivity. Qed.

Lemma check_increment_mismatch (self : Field) (v previous : pyval) (step : Z)
    (expected : number) (msg : string) :
  increment self = Some step -> previous_value self = Some previous ->
  Py.add_int previous step = Ok expected ->
  Py.ne_number v expected = true ->
  msg_successor self v previous step = Ok msg ->
  check_increment self v = (set_previous_value self v, Ok (Some msg)).
Proof. unfold check_increment. intros -> -> -> -> ->. reflexivity. Qed.

Lemma check_increment_successor (self : Field) (v previous : pyval) (step : Z)
    (expected : number) :
  increment self = Some step -> previous_value self = Some previous ->
  Py.add_int previous step = Ok expected ->
  Py.ne_number v expected = false ->
  check_increment self v = (self, Ok None).
Proof. unfold check_increment. intros -> -> -> ->. reflexivity. Qed.

(** ** A field without an increment *)

Lemma stateless_ignores_state c :
  (forall self v, c self v = c (with_previous_value self None) v) ->
  ignores_state (stateless c).
Proof. intros Hc self v _. unfold stateless. simpl. rewrite <- Hc. reflexivity. Qed.

Lemma check_increment_ignores_state : ignores_state check_increment.
Proof.
  intros self v E. rewrite (check_increment_unconfigured _ _ E).
  rewrite check_increment_unconfigured; [reflexivity | exact E].
Qed.

Lemma checks_ignore_state : Forall ignores_state checks_in_order.
Proof.
  unfold checks_in_order.
  repeat first
    [ apply List.Forall_nil
    | apply List.Forall_cons;
      [ first [ apply check_increment_ignores_state
              | apply stateless_ignores_state; intros [] v; reflexivity ] | ] ].
Qed.

Lemma first_failure_ignores_state (checks : list check) (self : Field) (v : pyval) :
  Forall ignores_state checks ->
  increment self = None ->
  first_failure checks self v =
    (self, (first_failure checks (with_previous_value self None) v).2).
Proof.
  intros Hall E. induction Hall as [|c checks Hc _ IH]; simpl.
  - reflexivity.
  - rewrite (Hc self v E).
    destruct (c (with_previous_value self None) v) as [s0 [[msg|]|e]] eqn:Ec;
      simpl; try reflexivity.
    rewrite IH.
    pose proof (Hc (with_previous_value self None) v E) as E2.
    rewrite Ec in E2. injection E2 as -> _.
    reflexivity.
Qed.

Lemma validate_ignores_state (self : Field) (data : pyval) :
  increment self = None ->
  validate self data = (self, (validate (with_previous_value self None) data).2).
Proof.
  intros E. rewrite !validate_first_failure.
  replace (_get_field_value (with_previous_value self None) data)
    with (_get_field_value self data) by reflexivity.
  destruct (_get_field_value self data) as [v|e]; [|reflexivity].
  apply first_failure_ignores_state; [apply checks_ignore_state | exact E].
Qed.


(** C8.  A field without an increment comes out of [validate] as it
    went in, a second call on the same record gives the same result as
    the first, and the result does not depend on [previous_value]. *)
Theorem validate_without_increment (self : Field) (data : pyval) :
  increment self = None ->
  (validate self data).1 = self
  /\ validate (validate self data).1 data = validate self data
  /\ forall pv, (validate (with_previous_value self pv) data).2
                = (validate self data).2.
Proof.
  intros E.
  assert (E1 : (validate self data).1 = self).
  { rewrite (validate_ignores_state _ _ E). reflexivity. }
  split; [exact E1|]. split.
  - rewrite E1. reflexivity.
  - intros pv.
    rewrite (validate_ignores_state (with_previous_value self pv)) by exact E.
    rewrite (validate_ignores_state self) by exact E. reflexivity.
Qed.

(** ** Extraction and its two failures *)

Lemma validate_extraction_raises (self : Field) (data : pyval) (e : exn) :
  _get_field_value self data = Raise e -> validate self data = (self, Raise e).
Proof. intros E. unfold validate. rewrite E. reflexivity. Qed.

Lemma validate_missing (self : Field) (data : pyval) :
  _get_field_value self data = Ok PNone ->
  validate self data = (self, Ok (invalid (msg_missing self))).
Proof. intros E. unfold validate. rewrite E. reflexivity. Qed.

Lemma descend_not_dict (pre post : list string) (key : string) (data value : pyval) :
  descend pre data = Ok value ->
  (forall entries, value <> PDict entries) ->
  descend (pre ++ key :: post) data = Raise AttributeError.
Proof.
  intros Epre Hnd. rewrite descend_app, Epre. simpl.
  destruct value; try reflexivity. destruct (Hnd entries). reflexivity.
Qed.

Lemma descend_absent (pre post : list string) (key : string) (data : pyval)
    (entries : list (string * pyval)) :
  descend pre data = Ok (PDict entries) ->
  Py.dict_lookup entries key = None ->
  descend (pre ++ key :: post) data = descend post PNone.
Proof.
  intros Epre Ek. rewrite descend_app, Epre. simpl. rewrite Ek. reflexivity.
Qed.

(** C4.  When a value on the way down the dotted path is not a dict,
    extraction raises the exception that names the path and the record,
    and [validate] raises it too.  When the last key is absent from the
    dict it is looked up in, extraction gives [None] and [validate]
    returns the invalid result [Field '<path>' missing]. *)
Theorem traversal_error_or_missing (self : Field) (data : pyval) :
  (forall pre key post value,
      Text.split "." (path self) = pre ++ key :: post ->
      descend pre data = Ok value ->
      (forall entries, value <> PDict entries) ->
      _get_field_value self data = Raise (traversal_error self data)
      /\ validate self data = (self, Raise (traversal_error self data)))
  /\
  (forall pre key entries,
      Text.split "." (path self) = pre ++ [key] ->
      descend pre data = Ok (PDict entries) ->
      Py.dict_lookup entries key = None ->
      _get_field_value self data = Ok PNone
      /\ validate self data =
           (self, Ok (mkValidationResult false
                        ("Field '" +:+ path self +:+ "' missing")))).
Proof.
  split.
  - intros pre key post value Esplit Epre Hnd.
    assert (E : _get_field_value self data = Raise (traversal_error self data)).
    { apply (get_field_value_Raise _ _ AttributeError).
      rewrite Esplit. eapply descend_not_dict; eassumption. }
    split; [exact E | apply validate_extraction_raises, E].
  - intros pre key entries Esplit Epre Ek.
    assert (E : _get_field_value self data = Ok PNone).
    { apply get_field_value_Ok. rewrite Esplit.
      rewrite (descend_absent _ _ _ _ _ Epre Ek). reflexivity. }
    split; [exact E | apply validate_missing, E].
Qed.

(** C10.  When a key of the dotted path is absent from the dict it is
    looked up in, [validate] raises the traversal exception if keys
    follow it, and returns the missing-field result only if it is the
    last key. *)
Theorem absent_inner_key_raises (self : Field) (data : pyval)
    (pre post : list string) (key : string) (entries : list (string * pyval)) :
  Text.split "." (path self) = pre ++ key :: post ->
  descend pre data = Ok (PDict entries) ->
  Py.dict_lookup entries key = None ->
  match post with
  | [] =>
      validate self data = (self, Ok (invalid (msg_missing self)))
  | _ :: _ =>
      _get_field_value self data = Raise (traversal_error self data)
      /\ validate self data = (self, Raise (traversal_error self data))
  end.
Proof.
  intros Esplit Epre Ek.
  pose proof (descend_absent pre post key data entries Epre Ek) as E.
  rewrite <- Esplit in E.
  destruct post as [|key' post].
  - apply validate_missing, get_field_value_Ok. exact E.
  - assert (E' : _get_field_value self data = Raise (traversal_error self data)).
    { apply (get_field_value_Raise _ _ AttributeError). rewrite E. reflexivity. }
    split; [exact E' | apply validate_extraction_raises, E'].
Qed.

Lemma validate_unconvertible (self : Field) (data v : pyval) (e : exn) :
  _get_field_value self data = Ok v ->
  v <> PNone -> v <> PStr "" ->
  upper_limit self <> None \/ lower_limit self <> None ->
  Py.Decimal v = Raise e ->
  validate self data = (self, Raise e).
Proof.
  intros Ev Hnone Hempty Hlim Ed. unfold validate. rewrite Ev.
  assert (Py.is_None v = false) as -> by (destruct v; [congruence | reflexivity..]).
  assert (Py.eq_str v "" = false) as ->.
  { destruct v as [| | | |[|c s]| |]; try reflexivity. congruence. }
  unfold above_upper_limit, below_lower_limit.
  destruct (upper_limit self) as [upper|]; [rewrite Ed; reflexivity|].
  destruct (lower_limit self) as [lower|]; [rewrite Ed; reflexivity|].
  destruct Hlim; congruence.
Qed.

Lemma same_rule_refl a : same_rule a a.
Proof. reflexivity. Qed.

Lemma same_rule_trans a b c : same_rule a b -> same_rule b c -> same_rule a c.
Proof. unfold same_rule. congruence. Qed.

Lemma same_rule_sym a b : same_rule a b -> same_rule b a.
Proof. unfold same_rule. congruence. Qed.

Lemma same_rule_attrs a b :
  same_rule a b ->
  path a = path b /\ upper_limit a = upper_limit b
  /\ lower_limit a = lower_limit b.
Proof. unfold same_rule, with_previous_value. intros [=]. auto. Qed.

Lemma checks_preserve_rule : Forall preserves_rule checks_in_order.
Proof.
  unfold checks_in_order.
  repeat first
    [ apply List.Forall_nil
    | apply List.Forall_cons;
      [ first [ exact check_increment_same_rule
              | intros self v; reflexivity ] | ] ].
Qed.

Lemma first_failure_same_rule (checks : list check) (self : Field) (v : pyval) :
  Forall preserves_rule checks ->
  same_rule self (first_failure checks self v).1.
Proof.
  intros Hall. revert self.
  induction Hall as [|c checks Hc _ IH]; intros self; simpl.
  - reflexivity.
  - specialize (Hc self v).
    destruct (c self v) as [self' [[msg|]|e]]; simpl in *; try exact Hc.
    eapply same_rule_trans; [exact Hc | apply IH].
Qed.

Lemma validate_same_rule (self : Field) (data : pyval) :
  same_rule self (validate self data).1.
Proof.
  rewrite validate_first_failure.
  destruct (_get_field_value self data) as [v|e]; [|reflexivity].
  apply first_failure_same_rule, checks_preserve_rule.
Qed.

Lemma validate_fields_same_rule (fields : list Field) (data : pyval) :
  Forall2 same_rule fields (validate_fields fields data).1.
Proof.
  induction fields as [|field rest IH]; simpl; [constructor|].
  pose proof (validate_same_rule field data) as Hf.
  destruct (validate field data) as [field' [result|e]]; simpl in *.
  - destruct (validate_fields rest data) as [rest' [validations|e]];
      simpl in *; constructor; assumption.
  - constructor; [assumption|].
    clear. induction rest; constructor; [reflexivity | assumption].
Qed.

Lemma validate_fields_Ok (fields fields' : list Field) (data : pyval)
    (validations : list FieldValidation) :
  validate_fields fields data = (fields', Ok validations) ->
  Forall2 (reports_field data) fields validations.
Proof.
  revert fields' validations.
  induction fields as [|field rest IH]; intros fields' validations; simpl.
  - intros [= _ <-]. constructor.
  - pose proof (validate_same_rule field data) as Hf.
    destruct (validate field data) as [field' [result|e]] eqn:Ef;
      [|discriminate].
    destruct (validate_fields rest data) as [rest' [vs|e]]; [|discriminate].
    intros [= _ <-]. constructor; [|eapply IH; reflexivity].
    split; simpl.
    + symmetry. apply same_rule_attrs. exact Hf.
    + exists field. split; [reflexivity|]. rewrite Ef. simpl.
      destruct result; reflexivity.
Qed.

Lemma validate_fields_raises (fields : list Field) (data : pyval) (f : Field) :
  f ∈ fields ->
  is_Raise (validate f data).2 ->
  is_Raise (validate_fields fields data).2.
Proof.
  intros Hin Hf. induction Hin as [f rest|f g rest _ IH]; simpl.
  - destruct (validate f data) as [f' [r|e]]; simpl in *; [contradiction | exact I].
  - destruct (validate g data) as [g' [r|e]]; simpl; [|exact I].
    destruct (validate_fields rest data) as [rest' [vs|e]]; simpl in *;
      [contradiction | exact I].
Qed.

Lemma reports_field_same_rule (data : pyval) (fields fields1 : list Field)
    (validations : list FieldValidation) :
  Forall2 same_rule fields fields1 ->
  Forall2 (reports_field data) fields1 validations ->
  Forall2 (reports_field data) fields validations.
Proof.
  intros Hs. revert validations.
  induction Hs as [|f f1 fields fields1 Hf _ IH]; intros validations Hr;
    inversion Hr as [|? v ? vs [Hpath [state [Hstate Hv]]] Hrest]; subst;
    constructor.
  - split.
    + rewrite Hpath. symmetry. apply same_rule_attrs. exact Hf.
    + exists state. split; [eapply same_rule_trans; eassumption | exact Hv].
  - apply IH. exact Hrest.
Qed.

Lemma Forall2_same_rule_trans (a b c : list Field) :
  Forall2 same_rule a b -> Forall2 same_rule b c -> Forall2 same_rule a c.
Proof.
  intros Hab. revert c. induction Hab; intros c Hbc; inversion Hbc; subst;
    constructor; eauto using same_rule_trans.
Qed.

Lemma drain_Ok (msg_queue : list string) :
  forall (self self' : TestCase) (acc results rest : _),
    drain self msg_queue acc = (self', rest, Ok results) ->
    rest = []
    /\ Forall2 same_rule (field_list self) (field_list self')
    /\ exists new,
         results = acc ++ new
         /\ Forall2 (reports_record (field_list self)) msg_queue new.
Proof.
  induction msg_queue as [|msg msg_queue IH]; intros self self' acc results rest; simpl.
  - intros [= <- <- <-]. split; [reflexivity|]. split.
    + induction (field_list self); constructor; [reflexivity | assumption].
    + exists []. rewrite app_nil_r. split; [reflexivity | constructor].
  - destruct (json_loads msg) as [current_msg|e] eqn:Ejson; [|discriminate].
    destruct (record_id_of current_msg) as [record_id|e] eqn:Eid; [|discriminate].
    unfold _validate.
    pose proof (validate_fields_same_rule (field_list self) current_msg) as Hs.
    destruct (validate_fields (field_list self) current_msg)
      as [fields1 [validations|e]] eqn:Ev; [|discriminate].
    intros Hd. apply IH in Hd as (-> & Hs' & new & -> & Hnew).
    simpl in *. split; [reflexivity|]. split.
    + eapply Forall2_same_rule_trans; eassumption.
    + exists ({| RecordID := record_id; Validations := validations |} :: new).
      split; [rewrite <- app_assoc; reflexivity|].
      constructor.
      * exists current_msg. repeat split; try assumption.
        simpl. eapply validate_fields_Ok. exact Ev.
      * clear -Hs Hnew. induction Hnew as [|m r q rs Hr _ IHn]; constructor.
        -- destruct Hr as (d & Hj & Hi & Hf). exists d. repeat split; try assumption.
           eapply reports_field_same_rule; eassumption.
        -- exact IHn.
Qed.

Lemma validate_fields_Ok_iff (fields : list Field) (data : pyval) :
  Forall (fun field => exists r, (validate field data).2 = Ok r) fields
  <-> exists validations,
        validate_fields fields data
        = (List.map (fun field => (validate field data).1) fields,
           Ok validations).
Proof.
  induction fields as [|field rest IH]; simpl.
  - split; [eauto | constructor].
  - split.
    + intros Hall. inversion Hall as [|? ? [r Hr] Hrest]; subst.
      apply IH in Hrest as [vs ->].
      destruct (validate field data) as [field' [result|e]]; simpl in *;
        [|discriminate].
      eauto.
    + intros [vs E].
      destruct (validate field data) as [field' [result|e]] eqn:Ef; simpl in *;
        [|discriminate].
      destruct (validate_fields rest data) as [rest' [vs'|e]] eqn:Er;
        [|discriminate].
      injection E as Hrest Hvs.
      apply List.Forall_cons; [rewrite Ef; simpl; eauto|].
      apply IH. exists vs'. rewrite Hrest. reflexivity.
Qed.

Lemma validate_fields_Ok_state (fields fields' : list Field) (data : pyval)
    (validations : list FieldValidation) :
  validate_fields fields data = (fields', Ok validations) ->
  fields' = List.map (fun field => (validate field data).1) fields.
Proof.
  revert fields' validations.
  induction fields as [|field rest IH]; intros fields' validations; simpl.
  - intros [= <- _]. reflexivity.
  - destruct (validate field data) as [field' [result|e]]; [|discriminate].
    destruct (validate_fields rest data) as [rest' [vs|e]]; [|discriminate].
    intros [= <- _]. simpl. f_equal. eapply IH. reflexivity.
Qed.

Lemma drain_returns_iff (msg_queue : list string) :
  forall (self : TestCase) (acc : list RecordReport),
    raises_nowhere (field_list self) msg_queue
    <-> exists self' results, drain self msg_queue acc = (self', [], Ok results).
Proof.
  induction msg_queue as [|msg msg_queue IH]; intros self acc; simpl.
  - split; [eauto | trivial].
  - split.
    + intros (d & id & Ejson & Eid & Hall & Hrest).
      rewrite Ejson, Eid. unfold _validate.
      apply validate_fields_Ok_iff in Hall as [vs ->]. simpl.
      apply IH. exact Hrest.
    + intros (self' & results & E).
      destruct (json_loads msg) as [d|e] eqn:Ejson; [|discriminate].
      destruct (record_id_of d) as [id|e] eqn:Eid; [|discriminate].
      unfold _validate in E.
      destruct (validate_fields (field_list self) d) as [fields1 [vs|e]] eqn:Ev;
        [|discriminate].
      exists d, id. split; [reflexivity|]. split; [exact Eid|].
      pose proof (validate_fields_Ok_state _ _ _ _ Ev) as ->.
      split.
      * apply validate_fields_Ok_iff. eauto.
      * apply (proj2 (IH (mkTestCase _)
                           (acc ++ [{| RecordID := id; Validations := vs |}]))).
        eauto.
Qed.

(** C3, amended.  When [validate_queue] returns a report, the queue is
    drained and the report has one entry per serialized record, in the
    order of the queue; each entry carries the text of the record's
    [metadata.serialId.recordId] and one validation per field of the
    test case, in the order of [field_list].  It returns a report
    exactly when every record deserializes, carries the identifier and
    makes no field raise, each field being in the sequence state the
    records before have left it in. *)
Theorem validate_queue_report (self : TestCase) (msg_queue : list string) :
  (forall self' rest report,
      validate_queue self msg_queue = (self', rest, Ok report) ->
      rest = []
      /\ length (Results report) = length msg_queue
      /\ Forall2 (reports_record (field_list self)) msg_queue (Results report)
      /\ Forall (fun r => map Field_ (Validations r) = map path (field_list self))
                (Results report))
  /\ (raises_nowhere (field_list self) msg_queue
      <-> exists self' report,
            validate_queue self msg_queue = (self', [], Ok report)).
Proof.
  unfold validate_queue. split.
  - intros self' rest report.
    destruct (drain self msg_queue []) as [[s q] [results|e]] eqn:Ed; [|discriminate].
    intros [= <- <- <-]. simpl.
    apply drain_Ok in Ed as (-> & _ & new & -> & Hnew). simpl.
    split; [reflexivity|]. split; [symmetry; eapply Forall2_length; exact Hnew|].
    split; [exact Hnew|].
    clear -Hnew. induction Hnew as [|m r q rs Hr _ IH]; constructor; [|exact IH].
    destruct Hr as (d & _ & _ & Hf). clear -Hf.
    induction Hf as [|f v fs vs [Hp _] _ IHf]; simpl; [reflexivity|].
    rewrite Hp, IHf. reflexivity.
  - rewrite (drain_returns_iff msg_queue self []). split.
    + intros (self' & results & ->). eauto.
    + intros (self' & report & E).
      destruct (drain self msg_queue []) as [[s q] [results|e]]; [|discriminate].
      injection E as -> -> _. eauto.
Qed.

Lemma drain_raises (self0 : Field) (data : pyval) (msg : string)
    (after : list string) :
  json_loads msg = Ok data ->
  (forall state, same_rule self0 state -> is_Raise (validate state data).2) ->
  forall (before : list string) (tc : TestCase) (acc : list RecordReport),
    (exists state, state ∈ field_list tc /\ same_rule self0 state) ->
    is_Raise (drain tc (before ++ msg :: after) acc).2.
Proof.
  intros Ejson Hraise before.
  induction before as [|m before IH]; intros tc acc (state & Hin & Hstate); simpl.
  - rewrite Ejson.
    destruct (record_id_of data) as [record_id|e]; [|exact I].
    unfold _validate.
    pose proof (validate_fields_raises _ data state Hin (Hraise _ Hstate)) as Hr.
    destruct (validate_fields (field_list tc) data) as [fields1 [vs|e]];
      simpl in *; [contradiction | exact I].
  - destruct (json_loads m) as [d|e]; [|exact I].
    destruct (record_id_of d) as [record_id|e]; [|exact I].
    unfold _validate.
    pose proof (validate_fields_same_rule (field_list tc) d) as Hs.
    destruct (validate_fields (field_list tc) d) as [fields1 [vs|e]];
      simpl in *; [|exact I].
    apply IH. simpl.
    apply list_elem_of_lookup in Hin as [i Hi].
    destruct (Forall2_lookup_l _ _ _ _ _ Hs Hi) as (state1 & Hi1 & Hst1).
    exists state1. split; [eapply list_elem_of_lookup_2; exact Hi1|].
    eapply same_rule_trans; eassumption.
Qed.

(** C9.  With an upper or a lower limit configured, a value that is
    present and not empty but that [Decimal] does not accept makes
    [validate] raise the exception of the conversion; a batch whose queue
    holds such a record ends in an exception, not in a report. *)
Theorem unconvertible_value_raises (self : Field) (data v : pyval) (e : exn) :
  _get_field_value self data = Ok v ->
  v <> PNone -> v <> PStr "" ->
  upper_limit self <> None \/ lower_limit self <> None ->
  Py.Decimal v = Raise e ->
  validate self data = (self, Raise e)
  /\ forall (tc : TestCase) (before after : list string) (msg : string),
       self ∈ field_list tc ->
       json_loads msg = Ok data ->
       is_Raise (validate_queue tc (before ++ msg :: after)).2.
Proof.
  intros Ev Hnone Hempty Hlim Ed. split.
  - apply (validate_unconvertible _ _ v); assumption.
  - intros tc before after msg Hin Ejson.
    assert (Hr : is_Raise (drain tc (before ++ msg :: after) []).2).
    { apply (drain_raises self data);
        [exact Ejson | | exists self; split; [exact Hin | reflexivity]].
      intros state Hstate.
      destruct (same_rule_attrs _ _ Hstate) as (Hp & Hu & Hl).
      rewrite (validate_unconvertible state data v e); [exact I | | assumption.. | | assumption].
      - unfold _get_field_value in *. rewrite <- Hp. exact Ev.
      - rewrite <- Hu, <- Hl. exact Hlim. }
    unfold validate_queue.
    destruct (drain tc (before ++ msg :: after) []) as [[s q] [results|e']];
      simpl in *; [contradiction | exact I].
Qed.

(** ** Limits: the comparison is exact *)

Lemma scale_exponent (a m e : Z) :
  m <= e ->
  (inject_Z a * Qpower 10 e == inject_Z (a * 10 ^ (e - m)) * Qpower 10 m)%Q.
Proof.
  intros Hle.
  rewrite inject_Z_mult, Zpower_Qpower by lia.
  replace e with ((e - m) + m) at 1 by lia.
  rewrite Qpower_plus by discriminate.
  change (inject_Z 10) with (10 : Q). ring.
Qed.

Lemma Qcompare_mult_r (x y k : Q) :
  (0 < k)%Q -> (x * k ?= y * k)%Q = (x ?= y)%Q.
Proof.
  intros Hk. destruct (Qcompare_spec x y) as [E|L|G].
  - apply Qeq_alt. rewrite E. reflexivity.
  - apply Qlt_alt. apply Qmult_lt_compat_r; assumption.
  - apply Qgt_alt. apply Qmult_lt_compat_r; assumption.
Qed.

Lemma cmp_value (a b : Dec.Decimal) (qa qb : Q) :
  Dec.value a = Some qa -> Dec.value b = Some qb ->
  Dec.cmp a b = Some (qa ?= qb)%Q.
Proof.
  destruct a as [sa ca ea| |], b as [sb cb eb| |]; try discriminate.
  intros [= <-] [= <-]. simpl. f_equal.
  rewrite (Qcompare_comp _ _ (scale_exponent (Dec.signed sa ca) (Z.min ea eb) ea ltac:(lia))
                         _ _ (scale_exponent (Dec.signed sb cb) (Z.min ea eb) eb ltac:(lia))).
  rewrite Qcompare_mult_r by (apply Qpower_0_lt; reflexivity).
  unfold Qcompare. simpl. rewrite !Z.mul_1_r. reflexivity.
Qed.

Lemma to_int_finite (d : Dec.Decimal) (q : Q) :
  Dec.value d = Some q -> exists n, Dec.to_int d = Ok n.
Proof.
  destruct d as [s c e| |]; try discriminate. intros _. simpl.
  destruct (0 <=? e); eauto.
Qed.

Lemma of_Z_cmp (a b : Z) : Dec.cmp (Dec.of_Z a) (Dec.of_Z b) = Some (a ?= b).
Proof.
  unfold Dec.cmp, Dec.of_Z. simpl. rewrite !Z.mul_1_r.
  f_equal. f_equal; unfold Dec.signed;
    [destruct (Z.ltb_spec a 0) | destruct (Z.ltb_spec b 0)];
    rewrite N2Z.inj_abs_N; lia.
Qed.

Lemma of_Z_gt (a b : Z) : Dec.gt (Dec.of_Z a) (Dec.of_Z b) = Ok (b <? a).
Proof.
  unfold Dec.gt. rewrite of_Z_cmp.
  destruct (Z.compare_spec a b), (Z.ltb_spec b a); try reflexivity; lia.
Qed.

Lemma of_Z_lt (a b : Z) : Dec.lt (Dec.of_Z a) (Dec.of_Z b) = Ok (a <? b).
Proof.
  unfold Dec.lt. rewrite of_Z_cmp.
  destruct (Z.compare_spec a b), (Z.ltb_spec a b); try reflexivity; lia.
Qed.

Lemma validate_int_within_limits (self : Field) (data : pyval) (n : Z)
    (upper lower : option Z) :
  _get_field_value self data = Ok (PInt n) ->
  upper_limit self = Dec.of_Z <$> upper ->
  lower_limit self = Dec.of_Z <$> lower ->
  values self = None -> equals_value self = None -> increment self = None ->
  type self <> TYPE_TIMESTAMP ->
  exists r,
    validate self data = (self, Ok r)
    /\ valid r = match upper with Some u => n <=? u | None => true end
                 && match lower with Some l => l <=? n | None => true end.
Proof.
  intros Ev Eu El Evals Eeq Einc Ety.
  unfold validate. rewrite Ev. simpl.
  unfold above_upper_limit, below_lower_limit, not_in_values, not_equals_value,
    validate_timestamp, msg_upper, msg_lower, Py.fmt_d_Decimal.
  rewrite Eu, El, Evals, Eeq, Einc.
  assert (String.eqb (type self) TYPE_TIMESTAMP = false) as ->.
  { destruct (String.eqb_spec (type self) TYPE_TIMESTAMP); congruence. }
  destruct upper as [u|], lower as [l|]; simpl;
    rewrite ?of_Z_gt, ?of_Z_lt; simpl;
    repeat match goal with
           | |- context [?a <? ?b] => destruct (Z.ltb_spec a b); simpl
           end;
    eexists; (split; [reflexivity|]); simpl;
    repeat match goal with
           | |- context [?a <=? ?b] => destruct (Z.leb_spec a b); simpl
           end; try reflexivity; lia.
Qed.

Lemma not_None_not_empty (v : pyval) :
  v <> PNone -> v <> PStr "" ->
  Py.is_None v = false /\ Py.eq_str v "" = false.
Proof.
  intros Hnone Hempty. split.
  - destruct v; [congruence | reflexivity..].
  - destruct v as [| | | |[|c s]| |]; try reflexivity. congruence.
Qed.

Lemma validate_upper_limit_exact (self : Field) (data v : pyval)
    (d limit : Dec.Decimal) (q qlimit : Q) :
  _get_field_value self data = Ok v ->
  v <> PNone -> v <> PStr "" ->
  Py.Decimal v = Ok d -> Dec.value d = Some q ->
  upper_limit self = Some limit -> Dec.value limit = Some qlimit ->
  lower_limit self = None ->
  values self = None -> equals_value self = None -> increment self = None ->
  type self <> TYPE_TIMESTAMP ->
  exists r, validate self data = (self, Ok r)
            /\ (valid r = true <-> (q <= qlimit)%Q).
Proof.
  intros Ev Hnone Hempty Ed Eq Eu Eql El Evals Eeq Einc Ety.
  destruct (not_None_not_empty v Hnone Hempty) as [E1 E2].
  destruct (to_int_finite _ _ Eq) as [n En].
  destruct (to_int_finite _ _ Eql) as [m Em].
  unfold validate. rewrite Ev, E1, E2.
  unfold above_upper_limit, below_lower_limit, not_in_values, not_equals_value,
    validate_timestamp, msg_upper, Py.fmt_d_Decimal, Dec.gt.
  rewrite Eu, El, Evals, Eeq, Einc, Ed. simpl.
  rewrite (cmp_value _ _ _ _ Eq Eql), En, Em. simpl.
  assert (String.eqb (type self) TYPE_TIMESTAMP = false) as ->.
  { destruct (String.eqb_spec (type self) TYPE_TIMESTAMP); congruence. }
  destruct (Qcompare_spec q qlimit) as [E|L|G]; eexists; (split; [reflexivity|]); simpl.
  - split; [intros _; rewrite E; apply Qle_refl | reflexivity].
  - split; [intros _; apply Qlt_le_weak, L | reflexivity].
  - split; [discriminate | intros Hle; destruct (Qlt_not_le _ _ G Hle)].
Qed.

Lemma validate_lower_limit_exact (self : Field) (data v : pyval)
    (d limit : Dec.Decimal) (q qlimit : Q) :
  _get_field_value self data = Ok v ->
  v <> PNone -> v <> PStr "" ->
  Py.Decimal v = Ok d -> Dec.value d = Some q ->
  lower_limit self = Some limit -> Dec.value limit = Some qlimit ->
  upper_limit self = None ->
  values self = None -> equals_value self = None -> increment self = None ->
  type self <> TYPE_TIMESTAMP ->
  exists r, validate self data = (self, Ok r)
            /\ (valid r = true <-> (qlimit <= q)%Q).
Proof.
  intros Ev Hnone Hempty Ed Eq El Eql Eu Evals Eeq Einc Ety.
  destruct (not_None_not_empty v Hnone Hempty) as [E1 E2].
  destruct (to_int_finite _ _ Eq) as [n En].
  destruct (to_int_finite _ _ Eql) as [m Em].
  unfold validate. rewrite Ev, E1, E2.
  unfold above_upper_limit, below_lower_limit, not_in_values, not_equals_value,
    validate_timestamp, msg_lower, Py.fmt_d_Decimal, Dec.lt.
  rewrite Eu, El, Evals, Eeq, Einc, Ed. simpl.
  rewrite (cmp_value _ _ _ _ Eq Eql), En, Em. simpl.
  assert (String.eqb (type self) TYPE_TIMESTAMP = false) as ->.
  { destruct (String.eqb_spec (type self) TYPE_TIMESTAMP); congruence. }
  destruct (Qcompare_spec q qlimit) as [E|L|G]; eexists; (split; [reflexivity|]); simpl.
  - split; [intros _; rewrite E; apply Qle_refl | reflexivity].
  - split; [discriminate | intros Hle; destruct (Qlt_not_le _ _ L Hle)].
  - split; [intros _; apply Qlt_le_weak, G | reflexivity].
Qed.

(** C5.  With [UpperLimit = 100] the value 100 is valid and 101 is not;
    with [LowerLimit = 100] the value 100 is valid and 99 is not.  The
    comparison is exact decimal arithmetic: whatever the size and the
    precision of the value and of the limit, the result is valid just
    when the number the value stands for is not beyond the limit. *)
Theorem limits_inclusive_and_exact :
  Field_init Example.upper_section = Ok (Example.limit_rule (Some 100) None)
  /\ Field_init Example.lower_section = Ok (Example.limit_rule None (Some 100))
  /\ validate (Example.limit_rule (Some 100) None)
              (Example.message 1 (Example.speed (PInt 100)))
     = (Example.limit_rule (Some 100) None, Ok (mkValidationResult true ""))
  /\ validate (Example.limit_rule (Some 100) None)
              (Example.message 1 (Example.speed (PInt 101)))
     = (Example.limit_rule (Some 100) None,
        Ok (mkValidationResult false
              "Field 'payload.speed' value '101' is greater than upper limit '100'"))
  /\ validate (Example.limit_rule None (Some 100))
              (Example.message 1 (Example.speed (PInt 100)))
     = (Example.limit_rule None (Some 100), Ok (mkValidationResult true ""))
  /\ validate (Example.limit_rule None (Some 100))
              (Example.message 1 (Example.speed (PInt 99)))
     = (Example.limit_rule None (Some 100),
        Ok (mkValidationResult false
              "Field 'payload.speed' value '99' is less than lower limit '100'"))
  /\ (forall (self : Field) (data v : pyval) (d limit : Dec.Decimal) (q qlimit : Q),
        _get_field_value self data = Ok v ->
        v <> PNone -> v <> PStr "" ->
        Py.Decimal v = Ok d -> Dec.value d = Some q ->
        upper_limit self = Some limit -> Dec.value limit = Some qlimit ->
        lower_limit self = None ->
        values self = None -> equals_value self = None ->
        increment self = None -> type self <> TYPE_TIMESTAMP ->
        exists r, validate self data = (self, Ok r)
                  /\ (valid r = true <-> (q <= qlimit)%Q))
  /\ (forall (self : Field) (data v : pyval) (d limit : Dec.Decimal) (q qlimit : Q),
        _get_field_value self data = Ok v ->
        v <> PNone -> v <> PStr "" ->
        Py.Decimal v = Ok d -> Dec.value d = Some q ->
        lower_limit self = Some limit -> Dec.value limit = Some qlimit ->
        upper_limit self = None ->
        values self = None -> equals_value self = None ->
        increment self = None -> type self <> TYPE_TIMESTAMP ->
        exists r, validate self data = (self, Ok r)
                  /\ (valid r = true <-> (qlimit <= q)%Q)).
Proof.
  do 6 (split; [vm_compute; reflexivity|]).
  split; [exact validate_upper_limit_exact | exact validate_lower_limit_exact].
Qed.

Lemma of_str_invalid (s : string) :
  Dec.parse s = None -> Dec.of_str s = Raise InvalidOperation.
Proof. unfold Dec.of_str. intros ->. reflexivity. Qed.

Lemma Field_init_bad_limit (field : gmap string string) :
  bad_limit field ->
  is_Raise (Field_init field)
  /\ (is_Some (field !! "Path") -> is_Some (field !! "Type") ->
      Field_init field = Raise InvalidOperation).
Proof.
  intros Hbad. unfold Field_init.
  destruct (field !! "Path") as [p|]; [|split; [exact I | intros [? [=]]]].
  destruct (field !! "Type") as [t|]; [|split; [exact I | intros _ [? [=]]]].
  assert (E : forall k : Field -> result Field,
    (upper <- match field !! "UpperLimit" with
             | Some upper_limit => d <- Dec.of_str upper_limit ;; Ok (Some d)
             | None => Ok None
             end ;;
     lower <- match field !! "LowerLimit" with
              | Some lower_limit => d <- Dec.of_str lower_limit ;; Ok (Some d)
              | None => Ok None
              end ;;
     vals <- match field !! "Values" with
             | Some values => v <- json_loads values ;; Ok (Some v)
             | None => Ok None
             end ;;
     incr <- match field !! "Increment" with
             | Some increment => n <- Py.int increment ;; Ok (Some n)
             | None => Ok None
             end ;;
     k {| path := p; type := t; upper_limit := upper; lower_limit := lower;
          values := vals; increment := incr;
          equals_value := field !! "EqualsValue"; previous_value := None |})
    = Raise InvalidOperation).
  { intros k. destruct Hbad as [(s & -> & Hs)|(s & El & Hs)].
    - rewrite (of_str_invalid _ Hs). reflexivity.
    - rewrite El, (of_str_invalid _ Hs).
      destruct (field !! "UpperLimit") as [u|]; [|reflexivity].
      unfold Dec.of_str. destruct (Dec.parse u); reflexivity. }
  rewrite (E Ok). split; [exact I | reflexivity].
Qed.

Lemma build_field_list_raises (before after : list (string * gmap string string))
    (key : string) (field : gmap string string) :
  key <> "_settings" ->
  is_Raise (Field_init field) ->
  is_Raise (build_field_list (before ++ (key, field) :: after)).
Proof.
  intros Hkey Hf. induction before as [|[k o] before IH]; simpl.
  - destruct (String.eqb_spec key "_settings"); [contradiction|].
    destruct (Field_init field); [contradiction | exact I].
  - destruct (String.eqb k "_settings"); [exact IH|].
    destruct (Field_init o); [|exact I]. simpl.
    destruct (build_field_list (before ++ (key, field) :: after));
      [contradiction | exact I].
Qed.

(** C6, amended.  A section whose [UpperLimit] or [LowerLimit] is not
    decimal text makes [Field.__init__] raise, and with [Path] and [Type]
    present the exception is the decimal module's [InvalidOperation];
    [TestCase.__init__] raises as well, so no test case is built. *)
Theorem bad_limit_fails_construction (field : gmap string string) :
  bad_limit field ->
  is_Raise (Field_init field)
  /\ (is_Some (field !! "Path") -> is_Some (field !! "Type") ->
      Field_init field = Raise InvalidOperation)
  /\ forall (before after : list (string * gmap string string)) (key : string),
       key <> "_settings" ->
       is_Raise (TestCase_init (before ++ (key, field) :: after)).
Proof.
  intros Hbad. destruct (Field_init_bad_limit field Hbad) as [Hr Hi].
  split; [exact Hr|]. split; [exact Hi|].
  intros before after key Hkey. unfold TestCase_init.
  pose proof (build_field_list_raises before after key field Hkey Hr) as Hb.
  destruct (build_field_list (before ++ (key, field) :: after));
    [contradiction | exact I].
Qed.

(** C1.  What the code does with [Increment = 1]: on 5, 6, 7 the third
    result is invalid, its message naming 6 as the expected value; on
    5, 7 the second result is invalid with the same message. *)
Theorem increment_feed :
  Field_init Example.increment_section = Ok Example.increment_rule
  /\ (feed Example.increment_rule
           (Example.record_int "seq" <$> [5; 6; 7])).2
     = [ Ok (mkValidationResult true "");
         Ok (mkValidationResult true "");
         Ok (mkValidationResult false
               "Field 'seq' successor value '7' did not match expected value '6', increment '1'") ]
  /\ (feed Example.increment_rule
           (Example.record_int "seq" <$> [5; 7])).2
     = [ Ok (mkValidationResult true "");
         Ok (mkValidationResult false
               "Field 'seq' successor value '7' did not match expected value '6', increment '1'") ].
Proof. repeat split; vm_compute; reflexivity. Qed.

(** C2.  What the code does after a successor check: with
    [Increment = 1] and 5 recorded, the call on 6 passes the check,
    returns valid and leaves [previous_value] at 5, not at 6; the call on
    7 fails the check and records 7. *)
Theorem passing_successor_keeps_previous_value :
  let after_5 := (validate Example.increment_rule (Example.record_int "seq" 5)).1 in
  previous_value after_5 = Some (PInt 5)
  /\ validate after_5 (Example.record_int "seq" 6)
     = (after_5, Ok (mkValidationResult true ""))
  /\ previous_value (validate after_5 (Example.record_int "seq" 6)).1
     <> Some (PInt 6)
  /\ previous_value (validate after_5 (Example.record_int "seq" 7)).1
     = Some (PInt 7).
Proof.
  repeat split; try (vm_compute; reflexivity). vm_compute. discriminate.
Qed.

End Properties.

(** * The properties at concrete inputs *)

Section Examples.
#[local] Existing Instance Example.host.
Import Example.

(** C3, as stated, fails: the record deserializes and carries its
    identifier, yet its payload is a number, so the rule on
    [payload.speed] raises and the call returns no report. *)
Lemma validate_queue_raises_on_traversal :
  json_loads (dumps (message 7 (PInt 3))) = Ok (message 7 (PInt 3))
  /\ validate_queue speed_case [dumps (message 7 (PInt 3))]
     = (speed_case, [],
        Raise (ValidatorException
                 "Could not find field with path 'payload.speed' in message: '{'metadata': {'serialId': {'recordId': 7}}, 'payload': 3}'")).
Proof. split; vm_compute; reflexivity. Qed.

(** C3 at a queue of two records, 12 then 13, and the test case with a
    rule of step 1 before a rule with a limit: the first record sets
    the baseline the second is compared with. *)
Lemma validate_queue_report_witness :
  raises_nowhere (field_list sequence_case)
    [dumps (message 1 (speed (PInt 12))); dumps (message 2 (speed (PInt 13)))]
  /\ exists self' report,
       validate_queue sequence_case
         [dumps (message 1 (speed (PInt 12))); dumps (message 2 (speed (PInt 13)))]
       = (self', [], Ok report)
       /\ length (Results report) = 2%nat.
Proof.
  assert (Hq : raises_nowhere (field_list sequence_case)
                 [dumps (message 1 (speed (PInt 12)));
                  dumps (message 2 (speed (PInt 13)))]).
  { exists (message 1 (speed (PInt 12))), "1".
    split; [vm_compute; reflexivity|]. split; [vm_compute; reflexivity|].
    split.
    { repeat apply List.Forall_cons; try apply List.Forall_nil;
        eexists; vm_compute; reflexivity. }
    exists (message 2 (speed (PInt 13))), "2".
    split; [vm_compute; reflexivity|]. split; [vm_compute; reflexivity|].
    split; [|exact I].
    repeat apply List.Forall_cons; try apply List.Forall_nil;
      eexists; vm_compute; reflexivity. }
  split; [exact Hq|].
  destruct (proj1 (proj2 (validate_queue_report sequence_case _)) Hq)
    as (self' & report & E).
  exists self', report. split; [exact E|].
  apply (proj1 (validate_queue_report sequence_case _) _ _ _ E).
Defined.

(** C4 at a payload that is a number, and at a payload without the key. *)
Lemma traversal_error_or_missing_witness :
  (_get_field_value (limit_rule (Some 100) None) (message 7 (PInt 3))
   = Raise (traversal_error (limit_rule (Some 100) None) (message 7 (PInt 3)))
   /\ validate (limit_rule (Some 100) None) (message 7 (PInt 3))
      = (limit_rule (Some 100) None,
         Raise (traversal_error (limit_rule (Some 100) None) (message 7 (PInt 3)))))
  /\ (_get_field_value (limit_rule (Some 100) None) (message 1 (PDict [])) = Ok PNone
      /\ validate (limit_rule (Some 100) None) (message 1 (PDict []))
         = (limit_rule (Some 100) None,
            Ok (mkValidationResult false "Field 'payload.speed' missing"))).
Proof.
  split.
  - apply (proj1 (traversal_error_or_missing (limit_rule (Some 100) None)
                    (message 7 (PInt 3))) ["payload"] "speed" [] (PInt 3));
      [reflexivity | reflexivity | discriminate].
  - apply (proj2 (traversal_error_or_missing (limit_rule (Some 100) None)
                    (message 1 (PDict []))) ["payload"] "speed" []);
      reflexivity.
Defined.

(** C10 at the empty record: [payload] is absent and [speed] follows. *)
Lemma absent_inner_key_raises_witness :
  _get_field_value (limit_rule (Some 100) None) (PDict [])
  = Raise (traversal_error (limit_rule (Some 100) None) (PDict []))
  /\ validate (limit_rule (Some 100) None) (PDict [])
     = (limit_rule (Some 100) None,
        Raise (traversal_error (limit_rule (Some 100) None) (PDict []))).
Proof.
  apply (absent_inner_key_raises (limit_rule (Some 100) None) (PDict [])
           [] ["speed"] "payload" []); reflexivity.
Defined.

(** C5 at the boundary. *)
Lemma limits_inclusive_and_exact_witness :
  exists r,
    validate (limit_rule (Some 100) None) (message 1 (speed (PStr "100.0")))
    = (limit_rule (Some 100) None, Ok r)
    /\ (valid r = true
        <-> (inject_Z 1000 * Qpower 10 (-1) <= inject_Z 100 * Qpower 10 0)%Q).
Proof.
  destruct limits_inclusive_and_exact as (_ & _ & _ & _ & _ & _ & Hupper & _).
  apply (Hupper (limit_rule (Some 100) None)
                (message 1 (speed (PStr "100.0"))) (PStr "100.0")
                (Dec.Finite false 1000 (-1)) (Dec.of_Z 100));
    try reflexivity; discriminate.
Defined.

(** C6, as stated, fails: the limit [fast] makes the constructor raise
    [InvalidOperation], which is not a [ValidatorException]. *)
Lemma bad_limit_raises_InvalidOperation :
  Field_init bad_limit_section = Raise InvalidOperation
  /\ ~ exists msg, Field_init bad_limit_section = Raise (ValidatorException msg).
Proof.
  assert (E : Field_init bad_limit_section = Raise InvalidOperation)
    by (vm_compute; reflexivity).
  split; [exact E|]. rewrite E. intros [msg [=]].
Qed.

(** C6 at the section with the limit [fast]. *)
Lemma bad_limit_fails_construction_witness :
  bad_limit bad_limit_section
  /\ Field_init bad_limit_section = Raise InvalidOperation
  /\ is_Raise (TestCase_init [("speed", bad_limit_section)]).
Proof.
  assert (Hbad : bad_limit bad_limit_section).
  { left. exists "fast". split; vm_compute; reflexivity. }
  split; [exact Hbad|].
  destruct (bad_limit_fails_construction bad_limit_section Hbad) as (_ & Hi & Ht).
  split.
  - apply Hi; vm_compute; eauto.
  - apply (Ht [] [] "speed"). discriminate.
Defined.


(** C8 at the rule with an upper limit. *)
Lemma validate_without_increment_witness :
  increment (limit_rule (Some 100) None) = None
  /\ validate (validate (limit_rule (Some 100) None)
                 (message 1 (speed (PInt 101)))).1
              (message 1 (speed (PInt 101)))
     = validate (limit_rule (Some 100) None) (message 1 (speed (PInt 101))).
Proof.
  split; [reflexivity|].
  apply (validate_without_increment (limit_rule (Some 100) None)
           (message 1 (speed (PInt 101)))).
  reflexivity.
Defined.

(** C9 at the speed [fast], alone and as the second record of a queue. *)
Lemma unconvertible_value_raises_witness :
  validate (limit_rule (Some 100) None) (message 8 (speed (PStr "fast")))
  = (limit_rule (Some 100) None, Raise InvalidOperation)
  /\ is_Raise (validate_queue speed_case
                 [dumps (message 1 (speed (PInt 12)));
                  dumps (message 8 (speed (PStr "fast")))]).2.
Proof.
  destruct (unconvertible_value_raises (limit_rule (Some 100) None)
              (message 8 (speed (PStr "fast"))) (PStr "fast") InvalidOperation)
    as [Hv Hq]; try reflexivity; try discriminate.
  { left. discriminate. }
  split; [exact Hv|].
  apply (Hq speed_case [dumps (message 1 (speed (PInt 12)))] []
            (dumps (message 8 (speed (PStr "fast"))))).
  - left.
  - vm_compute. reflexivity.
Defined.

End Examples.

(** * Further properties *)

(** ** The path as text *)

Lemma rev_app_rev_app (a b c : string) :
  String.rev_app (String.rev_app a b) c = String.rev_app b (a +:+ c).
Proof.
  revert b c. induction a as [|x a IH]; intros b c; simpl; [reflexivity|].
  rewrite IH. reflexivity.
Qed.

Lemma append_empty_r (s : string) : s +:+ "" = s.
Proof.
  induction s as [|x s IH]; [reflexivity|].
  change (String x (s +:+ "") = String x s). rewrite IH. reflexivity.
Qed.

Lemma rev_rev (s : string) : String.rev (String.rev s) = s.
Proof.
  unfold String.rev. rewrite rev_app_rev_app. cbn [String.rev_app].
  apply append_empty_r.
Qed.

Lemma split_go_key (sep : ascii) (key cur rest : string) :
  has_char sep key = false ->
  Text.split_go sep cur (key +:+ rest)
  = Text.split_go sep (String.rev_app key cur) rest.
Proof.
  revert cur. induction key as [|x key IH]; intros cur; simpl; [reflexivity|].
  destruct (Ascii.eqb x sep); [discriminate|]. simpl. apply IH.
Qed.

Lemma split_join (sep : ascii) (keys : list string) :
  keys <> [] ->
  Forall (fun key => has_char sep key = false) keys ->
  Text.split sep (Text.join (String sep EmptyString) keys) = keys.
Proof.
  intros Hne Hall. unfold Text.split.
  induction Hall as [|key keys Hk Hall IH]; [contradiction|].
  destruct keys as [|key' keys].
  - cbn [Text.join]. rewrite <- (append_empty_r key) at 1.
    rewrite (split_go_key _ _ _ _ Hk). cbn [Text.split_go].
    change (String.rev_app key "") with (String.rev key).
    rewrite rev_rev. reflexivity.
  - change (Text.join (String sep "") (key :: key' :: keys))
      with (key +:+ String sep (Text.join (String sep "") (key' :: keys))).
    rewrite (split_go_key _ _ _ _ Hk). cbn [Text.split_go].
    rewrite Ascii.eqb_refl.
    change (String.rev_app key "") with (String.rev key).
    rewrite rev_rev. f_equal. apply IH. discriminate.
Qed.

Section FurtherProperties.
Context `{Host}.

Ltac enter_validate Ev Hnone Hempty :=
  let E1 := fresh in let E2 := fresh in
  destruct (not_None_not_empty _ Hnone Hempty) as [E1 E2];
  unfold validate; rewrite Ev, E1, E2;
  unfold above_upper_limit, below_lower_limit, not_in_values, not_equals_value,
    attr.

(** ** Construction *)

(** X1.  A section without [Path] makes the constructor raise the
    [ValidatorException] that names [Path], whatever else the section
    holds; with [Path] but without [Type] it raises the one that names
    [Type]. *)
Theorem Field_init_requires_Path_and_Type (field : gmap string string) :
  (field !! "Path" = None ->
   Field_init field = Raise (missing_property "Path" field))
  /\ (is_Some (field !! "Path") -> field !! "Type" = None ->
      Field_init field = Raise (missing_property "Type" field)).
Proof.
  unfold Field_init, missing_property. split.
  - intros ->. reflexivity.
  - intros [p ->] ->. reflexivity.
Qed.

Lemma converted_bind {A} (conv : string -> result A) (entry : option string)
    (B : Type) (k : option A -> result B) (b : B) :
  (x <- match entry with
        | Some s => a <- conv s ;; Ok (Some a)
        | None => Ok None
        end ;; k x) = Ok b
  <-> exists attribute, converted conv entry attribute /\ k attribute = Ok b.
Proof.
  destruct entry as [s|]; simpl.
  - unfold converted. destruct (conv s) as [a|e]; simpl; split.
    + intros Hk. exists (Some a). split; [reflexivity | exact Hk].
    + intros ([a'|] & Hc & Hk); [|contradiction].
      injection Hc as <-. exact Hk.
    + discriminate.
    + intros ([a'|] & Hc & Hk); [discriminate | contradiction].
  - split.
    + intros Hk. exists None. split; [exact I | exact Hk].
    + intros ([a'|] & Hc & Hk); simpl in Hc; [contradiction | exact Hk].
Qed.

(** X2.  The constructor returns a field just when [Path] and [Type] are
    there and every optional entry that is there converts; the field then
    has the path and the type of the section, a constraint for each
    optional entry that is there and for no other, and no recorded value. *)
Theorem Field_init_Ok (field : gmap string string) (f : Field) :
  Field_init field = Ok f
  <-> field !! "Path" = Some (path f)
      /\ field !! "Type" = Some (type f)
      /\ converted Dec.of_str (field !! "UpperLimit") (upper_limit f)
      /\ converted Dec.of_str (field !! "LowerLimit") (lower_limit f)
      /\ converted json_loads (field !! "Values") (values f)
      /\ converted Py.int (field !! "Increment") (increment f)
      /\ equals_value f = field !! "EqualsValue"
      /\ previous_value f = None.
Proof.
  unfold Field_init.
  destruct (field !! "Path") as [p|];
    [|split; [discriminate | intros (E & _); discriminate]].
  destruct (field !! "Type") as [t|];
    [|split; [discriminate | intros (_ & E & _); discriminate]].
  rewrite converted_bind.
  setoid_rewrite converted_bind. setoid_rewrite converted_bind.
  setoid_rewrite converted_bind.
  split.
  - intros (u & Hu & l & Hl & vs & Hv & i & Hi & [= <-]). simpl. tauto.
  - intros (Hp & Ht & Hu & Hl & Hv & Hi & He & Hpv).
    exists (upper_limit f). split; [exact Hu|].
    exists (lower_limit f). split; [exact Hl|].
    exists (values f). split; [exact Hv|].
    exists (increment f). split; [exact Hi|].
    destruct f; simpl in *. congruence.
Qed.


Lemma converted_run {A} (conv : string -> result A) (entry : option string)
    (attribute : option A) (B : Type) (k : option A -> result B) :
  converted conv entry attribute ->
  (x <- match entry with
        | Some s => a <- conv s ;; Ok (Some a)
        | None => Ok None
        end ;; k x) = k attribute.
Proof.
  unfold converted. destruct entry as [s|], attribute as [a|]; try contradiction.
  - intros ->. reflexivity.
  - reflexivity.
Qed.

(** X3.  With [Path], [Type] and the limits in order, a [Values] entry
    that [json.loads] refuses makes the constructor raise the exception
    of [json.loads], and an [Increment] entry that [int] refuses makes it
    raise the exception of [int]. *)
Theorem bad_Values_or_Increment (field : gmap string string)
    (upper lower : option Dec.Decimal) :
  is_Some (field !! "Path") -> is_Some (field !! "Type") ->
  converted Dec.of_str (field !! "UpperLimit") upper ->
  converted Dec.of_str (field !! "LowerLimit") lower ->
  (forall s e,
      field !! "Values" = Some s -> json_loads s = Raise e ->
      Field_init field = Raise e)
  /\ (forall s e vals,
        converted json_loads (field !! "Values") vals ->
        field !! "Increment" = Some s -> Py.int s = Raise e ->
        Field_init field = Raise e).
Proof.
  intros [p Hp] [t Ht] Hu Hl. unfold Field_init. rewrite Hp, Ht.
  rewrite (converted_run _ _ _ _ _ Hu), (converted_run _ _ _ _ _ Hl).
  split.
  - intros s e -> ->. reflexivity.
  - intros s e vals Hv -> ->. rewrite (converted_run _ _ _ _ _ Hv). reflexivity.
Qed.

Lemma build_field_list_Ok (sections : list (string * gmap string string))
    (fields : list Field) :
  build_field_list sections = Ok fields
  <-> Forall2 (fun s f => Field_init s.2 = Ok f) (field_sections sections) fields.
Proof.
  unfold field_sections. revert fields.
  induction sections as [|[key options] sections IH]; intros fields; simpl.
  - split; [intros [= <-]; constructor | intros Hf; inversion Hf; reflexivity].
  - rewrite filter_cons. simpl.
    destruct (String.eqb_spec key "_settings") as [->|Hne].
    + rewrite decide_False by (intros Hc; apply Hc; reflexivity). apply IH.
    + rewrite decide_True by exact Hne.
      destruct (Field_init options) as [f|e] eqn:Ef; simpl.
      * destruct (build_field_list sections) as [fs|e]; simpl.
        -- split.
           ++ intros [= <-]. constructor; [exact Ef | apply IH; reflexivity].
           ++ intros Hf. inversion Hf as [|? f' ? fs' Hf' Hfs]; subst.
              simpl in Hf'. rewrite Ef in Hf'. injection Hf' as <-.
              apply IH in Hfs. injection Hfs as <-. reflexivity.
        -- split; [discriminate|].
           intros Hf. inversion Hf as [|? f' ? fs' Hf' Hfs]; subst.
           apply IH in Hfs. discriminate.
      * split; [discriminate|].
        intros Hf. inversion Hf as [|? f' ? fs' Hf' Hfs]; subst.
        simpl in Hf'. rewrite Ef in Hf'. discriminate.
Qed.

Lemma build_field_list_Raise (sections : list (string * gmap string string)) (e : exn) :
  build_field_list sections = Raise e ->
  exists before key options after good,
    sections = before ++ (key, options) :: after
    /\ key <> "_settings"
    /\ Field_init options = Raise e
    /\ build_field_list before = Ok good.
Proof.
  induction sections as [|[key options] sections IH]; simpl; [discriminate|].
  destruct (String.eqb_spec key "_settings") as [->|Hne].
  - intros E. destruct (IH E) as (before & k & o & after & good & -> & Hk & Ho & Hb).
    exists (("_settings", options) :: before), k, o, after, good.
    split; [reflexivity|]. split; [exact Hk|]. split; [exact Ho|].
    simpl. exact Hb.
  - destruct (Field_init options) as [f|e'] eqn:Ef; simpl.
    + destruct (build_field_list sections) as [fs|e'']; simpl; [discriminate|].
      intros [= ->].
      destruct (IH eq_refl) as (before & k & o & after & good & -> & Hk & Ho & Hb).
      exists ((key, options) :: before), k, o, after, (f :: good).
      split; [reflexivity|]. split; [exact Hk|]. split; [exact Ho|].
      simpl. destruct (String.eqb_spec key "_settings"); [contradiction|].
      rewrite Ef, Hb. reflexivity.
    + intros [= ->]. exists [], key, options, sections, [].
      split; [reflexivity|]. split; [exact Hne|]. split; [exact Ef | reflexivity].
Qed.

(** X4.  The test case has one field per section other than [_settings],
    in the order of the sections; when a section makes the constructor of
    its field raise, the first such section decides the exception, and
    the sections before it alone would have made a test case. *)
Theorem TestCase_init_fields (sections : list (string * gmap string string)) :
  (forall tc,
      TestCase_init sections = Ok tc
      <-> Forall2 (fun s f => Field_init s.2 = Ok f)
                  (field_sections sections) (field_list tc))
  /\ (forall e,
        TestCase_init sections = Raise e ->
        exists before key options after tc,
          sections = before ++ (key, options) :: after
          /\ key <> "_settings"
          /\ Field_init options = Raise e
          /\ TestCase_init before = Ok tc).
Proof.
  unfold TestCase_init. split.
  - intros [fields]. simpl. rewrite <- build_field_list_Ok.
    destruct (build_field_list sections) as [fs|e]; simpl; split;
      try discriminate; congruence.
  - intros e.
    destruct (build_field_list sections) as [fs|e'] eqn:E; simpl; [discriminate|].
    intros [= ->].
    destruct (build_field_list_Raise _ _ E)
      as (before & key & options & after & good & -> & Hk & Ho & Hb).
    exists before, key, options, after, (mkTestCase good).
    rewrite Hb. split; [reflexivity|]. split; [exact Hk|].
    split; [exact Ho | reflexivity].
Qed.

(** ** Extraction, absent and empty values *)

Lemma descend_nest (keys : list string) (v : pyval) :
  descend keys (nest keys v) = Ok v.
Proof.
  induction keys as [|key keys IH]; simpl; [reflexivity|].
  rewrite String.eqb_refl. simpl. exact IH.
Qed.

(** X5.  When the path is the keys joined by dots, none of them holding
    a dot, extraction from the record that nests a value under these keys
    gives the value back. *)
Theorem extraction_round_trip (self : Field) (keys : list string) (v : pyval) :
  keys <> [] ->
  Forall (fun key => has_char "." key = false) keys ->
  path self = Text.join "." keys ->
  _get_field_value self (nest keys v) = Ok v.
Proof.
  intros Hne Hall Hpath. apply get_field_value_Ok.
  rewrite Hpath, (split_join "." keys Hne Hall). apply descend_nest.
Qed.

(** X6.  A last key that is there with [None] is reported as missing,
    like an absent key, and one that is there with the empty text is
    reported as empty, whatever constraints the rule holds. *)
Theorem null_and_empty_leaf (self : Field) (data : pyval) (pre : list string)
    (key : string) (entries : list (string * pyval)) :
  Text.split "." (path self) = pre ++ [key] ->
  descend pre data = Ok (PDict entries) ->
  (Py.dict_lookup entries key = Some PNone ->
   validate self data
   = (self, Ok (mkValidationResult false ("Field '" +:+ path self +:+ "' missing"))))
  /\ (Py.dict_lookup entries key = Some (PStr "") ->
      validate self data
      = (self, Ok (mkValidationResult false ("Field '" +:+ path self +:+ "' empty")))).
Proof.
  intros Esplit Epre.
  assert (E : forall x, Py.dict_lookup entries key = Some x ->
                        _get_field_value self data = Ok x).
  { intros x Ex. apply get_field_value_Ok.
    rewrite Esplit, descend_app, Epre. simpl. rewrite Ex. reflexivity. }
  split; intros Ex; unfold validate; rewrite (E _ Ex); reflexivity.
Qed.

(** ** One constraint at a time *)

(** X7.  A rule without constraints returns, for a value that is there
    and not empty, what the timestamp check alone returns: with a type
    other than [timestamp] every such value is valid, a text under the
    type [decimal] as well. *)
Theorem unconstrained_rule (self : Field) (data v : pyval) :
  _get_field_value self data = Ok v ->
  v <> PNone -> v <> PStr "" ->
  upper_limit self = None -> lower_limit self = None ->
  values self = None -> equals_value self = None -> increment self = None ->
  validate self data = (self, Ok (validate_timestamp self v))
  /\ (type self <> TYPE_TIMESTAMP ->
      validate self data = (self, Ok (mkValidationResult true ""))).
Proof.
  intros Ev Hnone Hempty Eu El Evals Eeq Einc.
  enter_validate Ev Hnone Hempty.
  rewrite Eu, El, Evals, Eeq, Einc. split; [reflexivity|].
  intros Ety. unfold validate_timestamp.
  destruct (String.eqb_spec (type self) TYPE_TIMESTAMP); [contradiction | reflexivity].
Qed.

Lemma stateless_with_type (c : Field -> pyval -> result (option string))
    (self : Field) (v : pyval) (t : string) :
  (forall s, c (with_type s t) v = c s v) ->
  stateless c (with_type self t) v
  = (with_type (stateless c self v).1 t, (stateless c self v).2).
Proof. intros Hc. unfold stateless. simpl. rewrite Hc. reflexivity. Qed.

Lemma first_seven_with_type (t : string) :
  Forall (fun c : check =>
            forall self v,
              c (with_type self t) v = (with_type (c self v).1 t, (c self v).2))
    [check_missing; check_empty; check_upper_limit; check_lower_limit;
     check_values; check_equals_value; check_increment].
Proof.
  repeat first
    [ apply List.Forall_nil
    | apply List.Forall_cons;
      [ first [ intros self v; apply stateless_with_type; intros []; reflexivity
              | idtac ] | ] ].
  intros [p ty u l vs inc eq pv] v. unfold check_increment, with_type. simpl.
  destruct inc as [step|]; [|reflexivity].
  destruct pv as [previous|]; [|reflexivity].
  destruct (Py.add_int previous step) as [expected|]; [|reflexivity].
  destruct (Py.ne_number v expected); [|reflexivity].
  unfold msg_successor. simpl.
  destruct (Py.add_int previous step) as [expected'|]; [|reflexivity]. simpl.
  destruct (Py.fmt_d v); [|reflexivity]. simpl.
  destruct (Py.fmt_d_number expected'); reflexivity.
Qed.

Lemma first_failure_with_type (t : string) (pre : list check) :
  Forall (fun c : check =>
            forall self v,
              c (with_type self t) v = (with_type (c self v).1 t, (c self v).2))
         pre ->
  forall (self : Field) (v : pyval),
    type self <> TYPE_TIMESTAMP -> t <> TYPE_TIMESTAMP ->
    Forall preserves_rule pre ->
    first_failure (pre ++ [check_timestamp]) (with_type self t) v
    = (with_type (first_failure (pre ++ [check_timestamp]) self v).1 t,
       (first_failure (pre ++ [check_timestamp]) self v).2).
Proof.
  intros Hall. induction Hall as [|c pre Hc _ IH];
    intros self v Hty Ht Hrule.
  - simpl. unfold check_timestamp, stateless. simpl.
    destruct (String.eqb_spec (type self) TYPE_TIMESTAMP); [contradiction|].
    destruct (String.eqb_spec t TYPE_TIMESTAMP); [contradiction|]. reflexivity.
  - simpl. rewrite Hc.
    inversion Hrule as [|? ? Hr Hrules]; subst.
    specialize (Hr self v).
    destruct (c self v) as [s' [[msg|]|e]]; simpl in *; try reflexivity.
    apply IH; try assumption.
    unfold same_rule, with_previous_value in Hr. injection Hr as _ Hty' _.
    congruence.
Qed.

(** X8.  The declared type is looked at for the timestamp check only:
    two types other than [timestamp] give the same result and the same
    recorded value. *)
Theorem type_matters_only_for_timestamp (self : Field) (data : pyval) (t : string) :
  type self <> TYPE_TIMESTAMP -> t <> TYPE_TIMESTAMP ->
  validate (with_type self t) data
  = (with_type (validate self data).1 t, (validate self data).2).
Proof.
  intros Hty Ht. rewrite !validate_first_failure.
  replace (_get_field_value (with_type self t) data)
    with (_get_field_value self data) by reflexivity.
  destruct (_get_field_value self data) as [v|e]; [|reflexivity].
  change checks_in_order
    with ([check_missing; check_empty; check_upper_limit; check_lower_limit;
           check_values; check_equals_value; check_increment]
            ++ [check_timestamp]).
  apply first_failure_with_type; try assumption.
  - apply first_seven_with_type.
  - pose proof checks_preserve_rule as Hp. unfold checks_in_order in Hp.
    repeat (apply Forall_cons in Hp as [? Hp]).
    repeat (apply List.Forall_cons; [assumption|]). apply List.Forall_nil.
Qed.

Lemma to_int_of_Z (n : Z) : Dec.to_int (Dec.of_Z n) = Ok n.
Proof.
  unfold Dec.to_int, Dec.of_Z, Dec.signed. simpl. f_equal.
  rewrite Z.mul_1_r. destruct (Z.ltb_spec n 0); rewrite N2Z.inj_abs_N; lia.
Qed.

(** X9.  With both limits configured and integers on all sides, the
    upper limit is checked first: a value above it gets the upper-limit
    message, a value not above it but below the lower limit gets the
    lower-limit message, and any other value is valid. *)
Theorem integer_within_limits (self : Field) (data : pyval) (n upper lower : Z) :
  _get_field_value self data = Ok (PInt n) ->
  upper_limit self = Some (Dec.of_Z upper) ->
  lower_limit self = Some (Dec.of_Z lower) ->
  values self = None -> equals_value self = None -> increment self = None ->
  type self <> TYPE_TIMESTAMP ->
  validate self data
  = (self,
     Ok (if upper <? n then
           mkValidationResult false
             ("Field '" +:+ path self +:+ "' value '" +:+ pretty n
                +:+ "' is greater than upper limit '" +:+ pretty upper +:+ "'")
         else if n <? lower then
           mkValidationResult false
             ("Field '" +:+ path self +:+ "' value '" +:+ pretty n
                +:+ "' is less than lower limit '" +:+ pretty lower +:+ "'")
         else mkValidationResult true "")).
Proof.
  intros Ev Eu El Evals Eeq Einc Ety.
  unfold validate. rewrite Ev. simpl.
  unfold above_upper_limit, below_lower_limit, not_in_values, not_equals_value,
    validate_timestamp, msg_upper, msg_lower, Py.fmt_d_Decimal, attr.
  rewrite Eu, El, Evals, Eeq, Einc.
  cbn [Py.Decimal bind]. rewrite of_Z_gt, of_Z_lt, !to_int_of_Z.
  cbn [bind].
  destruct (upper <? n); [reflexivity|].
  destruct (n <? lower); [reflexivity|].
  destruct (String.eqb_spec (type self) TYPE_TIMESTAMP); [contradiction | reflexivity].
Qed.

(** X10.  The message of a value above the upper limit shows the value
    and the limit cut to their integer parts. *)
Theorem limit_message_truncates (self : Field) (data v : pyval)
    (d limit : Dec.Decimal) (n m : Z) :
  _get_field_value self data = Ok v ->
  v <> PNone -> v <> PStr "" ->
  upper_limit self = Some limit ->
  Py.Decimal v = Ok d ->
  Dec.gt d limit = Ok true ->
  Dec.to_int d = Ok n -> Dec.to_int limit = Ok m ->
  validate self data
  = (self, Ok (mkValidationResult false
                 ("Field '" +:+ path self +:+ "' value '" +:+ pretty n
                    +:+ "' is greater than upper limit '" +:+ pretty m +:+ "'"))).
Proof.
  intros Ev Hnone Hempty Eu Ed Egt En Em.
  enter_validate Ev Hnone Hempty.
  unfold msg_upper, Py.fmt_d_Decimal.
  rewrite Eu, Ed. simpl. rewrite Egt. simpl.
  rewrite En, Em. reflexivity.
Qed.

Lemma cmp_NaN (d limit : Dec.Decimal) :
  (exists s g p, d = Dec.NaN s g p) \/ (exists s g p, limit = Dec.NaN s g p) ->
  Dec.cmp d limit = None.
Proof.
  intros [(s & g & p & ->)|(s & g & p & ->)]; [reflexivity|].
  destruct d; reflexivity.
Qed.

(** X11.  With an upper limit configured, a value or a limit that is a
    NaN makes [validate] raise [InvalidOperation], and the value
    [Infinity] above a finite limit makes it raise [OverflowError] while
    the message is formatted. *)
Theorem special_values_raise (self : Field) (data v : pyval)
    (d limit : Dec.Decimal) :
  _get_field_value self data = Ok v ->
  v <> PNone -> v <> PStr "" ->
  upper_limit self = Some limit ->
  Py.Decimal v = Ok d ->
  ((exists s g p, d = Dec.NaN s g p) \/ (exists s g p, limit = Dec.NaN s g p) ->
   validate self data = (self, Raise InvalidOperation))
  /\ (d = Dec.Infinity false -> (exists s c e, limit = Dec.Finite s c e) ->
      validate self data = (self, Raise OverflowError)).
Proof.
  intros Ev Hnone Hempty Eu Ed.
  enter_validate Ev Hnone Hempty.
  unfold msg_upper, Py.fmt_d_Decimal, Dec.gt.
  rewrite Eu, Ed. simpl. split.
  - intros Hnan. rewrite (cmp_NaN _ _ Hnan). reflexivity.
  - intros -> (s & c & e & ->). reflexivity.
Qed.

Lemma existsb_eq_str (items : list pyval) (s : string) :
  existsb (fun item => Py.eq_str item s) items = true <-> PStr s ∈ items.
Proof.
  rewrite existsb_exists. split.
  - intros (item & Hin & Heq). destruct item; try discriminate.
    simpl in Heq. apply String.eqb_eq in Heq as ->.
    apply list_elem_of_In. exact Hin.
  - intros Hin. exists (PStr s). split; [apply list_elem_of_In; exact Hin|].
    simpl. apply String.eqb_refl.
Qed.

(** X12.  Under a [Values] list alone, a value is valid just when its
    text form is one of the texts of the list; otherwise the message
    lists the text forms of all the entries, separated by commas. *)
Theorem values_list_membership (self : Field) (data v : pyval) (items : list pyval) :
  _get_field_value self data = Ok v ->
  v <> PNone -> v <> PStr "" ->
  upper_limit self = None -> lower_limit self = None ->
  values self = Some (PList items) ->
  equals_value self = None -> increment self = None ->
  type self <> TYPE_TIMESTAMP ->
  exists r,
    validate self data = (self, Ok r)
    /\ (valid r = true <-> PStr (Py.str v) ∈ items)
    /\ (valid r = false ->
        error r = "Field '" +:+ path self +:+ "' value '" +:+ Py.str v
                  +:+ "' not in list of known values: ["
                  +:+ Text.join ", " (List.map Py.str items) +:+ "]").
Proof.
  intros Ev Hnone Hempty Eu El Evals Eeq Einc Ety.
  enter_validate Ev Hnone Hempty.
  rewrite Eu, El, Evals, Eeq, Einc. simpl.
  pose proof (existsb_eq_str items (Py.str v)) as Hmem.
  destruct (existsb (fun item => Py.eq_str item (Py.str v)) items); simpl.
  - unfold validate_timestamp.
    destruct (String.eqb_spec (type self) TYPE_TIMESTAMP); [contradiction|].
    eexists. split; [reflexivity|]. simpl. split; [tauto | discriminate].
  - eexists. split; [reflexivity|]. simpl. split; [|reflexivity].
    split; [discriminate|]. intros Hin. apply Hmem in Hin. discriminate.
Qed.

(** X13.  When [Values] holds neither a list, nor a text, nor a dict,
    [validate] raises [TypeError] on every value that is there and not
    empty. *)
Theorem values_not_a_container (self : Field) (data v vals : pyval) :
  _get_field_value self data = Ok v ->
  v <> PNone -> v <> PStr "" ->
  upper_limit self = None -> lower_limit self = None ->
  values self = Some vals ->
  (forall items, vals <> PList items) ->
  (forall t, vals <> PStr t) ->
  (forall entries, vals <> PDict entries) ->
  validate self data = (self, Raise TypeError).
Proof.
  intros Ev Hnone Hempty Eu El Evals Hl Hs Hd.
  enter_validate Ev Hnone Hempty.
  rewrite Eu, El, Evals.
  destruct vals; try reflexivity; exfalso; [eapply Hs | eapply Hl | eapply Hd]; reflexivity.
Qed.

(** X14.  Under [EqualsValue] alone, a value is valid just when its text
    form is the expected text. *)
Theorem equals_value_on_text_form (self : Field) (data v : pyval) (expected : string) :
  _get_field_value self data = Ok v ->
  v <> PNone -> v <> PStr "" ->
  upper_limit self = None -> lower_limit self = None -> values self = None ->
  equals_value self = Some expected ->
  increment self = None -> type self <> TYPE_TIMESTAMP ->
  exists r,
    validate self data = (self, Ok r)
    /\ (valid r = true <-> Py.str v = expected)
    /\ (valid r = false ->
        error r = "Field '" +:+ path self +:+ "' value '" +:+ Py.str v
                  +:+ "' did not equal expected value '" +:+ expected +:+ "'").
Proof.
  intros Ev Hnone Hempty Eu El Evals Eeq Einc Ety.
  enter_validate Ev Hnone Hempty.
  rewrite Eu, El, Evals, Eeq, Einc. simpl.
  destruct (String.eqb_spec (Py.str v) expected) as [E|E]; simpl.
  - unfold validate_timestamp.
    destruct (String.eqb_spec (type self) TYPE_TIMESTAMP); [contradiction|].
    eexists. split; [reflexivity|]. simpl. split; [tauto | discriminate].
  - eexists. split; [reflexivity|]. simpl. split; [|reflexivity].
    split; [discriminate | contradiction].
Qed.

(** ** The recorded value *)

(** X15.  Under an increment alone and on integers: the first value is
    recorded and valid; afterwards the value that is the recorded one plus
    the increment is valid and leaves the recorded value alone, and any
    other value is invalid, its message naming the expected value, and is
    recorded. *)
Theorem increment_on_integers (self : Field) (data : pyval) (n step : Z) :
  _get_field_value self data = Ok (PInt n) ->
  upper_limit self = None -> lower_limit self = None ->
  values self = None -> equals_value self = None ->
  increment self = Some step -> type self <> TYPE_TIMESTAMP ->
  (previous_value self = None ->
   validate self data
   = (set_previous_value self (PInt n), Ok (mkValidationResult true "")))
  /\ (forall p,
        previous_value self = Some (PInt p) ->
        validate self data
        = if n =? p + step
          then (self, Ok (mkValidationResult true ""))
          else (set_previous_value self (PInt n),
                Ok (mkValidationResult false
                      ("Field '" +:+ path self +:+ "' successor value '"
                         +:+ pretty n +:+ "' did not match expected value '"
                         +:+ pretty (p + step) +:+ "', increment '"
                         +:+ pretty step +:+ "'")))).
Proof.
  intros Ev Eu El Evals Eeq Einc Ety.
  unfold validate. rewrite Ev. simpl.
  unfold above_upper_limit, below_lower_limit, not_in_values, not_equals_value,
    validate_timestamp.
  rewrite Eu, El, Evals, Eeq, Einc. simpl.
  assert (String.eqb (type self) TYPE_TIMESTAMP = false) as Et.
  { destruct (String.eqb_spec (type self) TYPE_TIMESTAMP); congruence. }
  split.
  - intros ->. simpl. rewrite Et. reflexivity.
  - intros p ->. simpl. unfold Py.ne_number, msg_successor. simpl.
    destruct (n =? p + step); simpl; [rewrite Et|]; reflexivity.
Qed.

Lemma text_baseline_raises (self : Field) (data v : pyval) (s : string) :
  _get_field_value self data = Ok v ->
  v <> PNone -> v <> PStr "" ->
  upper_limit self = None -> lower_limit self = None ->
  values self = None -> equals_value self = None ->
  is_Some (increment self) ->
  previous_value self = Some (PStr s) ->
  validate self data = (self, Raise TypeError).
Proof.
  intros Ev Hnone Hempty Eu El Evals Eeq [step Einc] Epv.
  destruct (not_None_not_empty _ Hnone Hempty) as [E1 E2].
  unfold validate. rewrite Ev, E1, E2.
  unfold above_upper_limit, below_lower_limit, not_in_values, not_equals_value.
  rewrite Eu, El, Evals, Eeq, Einc, Epv. reflexivity.
Qed.

(** X16.  Under an increment alone, a first value that is a text is
    recorded and valid, and every later record with a value that is
    there and not empty makes [validate] raise [TypeError]. *)
Theorem text_baseline_raises_ever_after (self : Field) (first : pyval)
    (s : string) (records : list pyval) :
  upper_limit self = None -> lower_limit self = None ->
  values self = None -> equals_value self = None ->
  is_Some (increment self) -> previous_value self = None ->
  type self <> TYPE_TIMESTAMP ->
  _get_field_value self first = Ok (PStr s) -> s <> "" ->
  Forall (fun r => exists v, _get_field_value self r = Ok v
                             /\ v <> PNone /\ v <> PStr "") records ->
  feed self (first :: records)
  = (set_previous_value self (PStr s),
     Ok (mkValidationResult true "")
       :: List.map (fun _ => Raise TypeError) records).
Proof.
  intros Eu El Evals Eeq [step Einc] Epv Ety Ev Hs Hall.
  assert (E1 : validate self first
               = (set_previous_value self (PStr s), Ok (mkValidationResult true ""))).
  { unfold validate. rewrite Ev. simpl.
    assert (String.eqb s "" = false) as ->
      by (destruct s; [contradiction | reflexivity]).
    unfold above_upper_limit, below_lower_limit, not_in_values, not_equals_value,
      validate_timestamp.
    rewrite Eu, El, Evals, Eeq, Einc, Epv. simpl.
    destruct (String.eqb_spec (type self) TYPE_TIMESTAMP); [contradiction | reflexivity]. }
  simpl. rewrite E1.
  assert (E2 : feed (set_previous_value self (PStr s)) records
               = (set_previous_value self (PStr s),
                  List.map (fun _ => Raise TypeError) records)).
  { induction Hall as [|r records (v & Hv & Hnone & Hempty) _ IH]; simpl;
      [reflexivity|].
    rewrite (text_baseline_raises (set_previous_value self (PStr s)) r v s);
      try assumption; try reflexivity.
    - rewrite IH. reflexivity.
    - simpl. rewrite Einc. eauto. }
  rewrite E2. reflexivity.
Qed.

Lemma first_failure_keeps_prefix (pre rest : list check) (self : Field) (v : pyval) :
  Forall keeps_field pre ->
  first_failure (pre ++ rest) self v = first_failure rest self v
  \/ ((first_failure (pre ++ rest) self v).1 = self
      /\ forall r, (first_failure (pre ++ rest) self v).2 = Ok r -> valid r = false).
Proof.
  intros Hk. induction Hk as [|c pre Hc _ IH]; simpl.
  - left. reflexivity.
  - specialize (Hc self v).
    destruct (c self v) as [s' [[msg|]|e]]; simpl in Hc; subst s'.
    + right. split; [reflexivity|]. intros r [= <-]. reflexivity.
    + exact IH.
    + right. split; [reflexivity|]. discriminate.
Qed.

Lemma six_keep_field :
  Forall keeps_field
    [check_missing; check_empty; check_upper_limit; check_lower_limit;
     check_values; check_equals_value].
Proof. repeat constructor; apply stateless_keeps_field. Qed.

Lemma validate_state_cases (self : Field) (data : pyval) :
  (validate self data).1 = self
  \/ exists v,
       _get_field_value self data = Ok v
       /\ is_Some (increment self)
       /\ (validate self data).1 = set_previous_value self v
       /\ exists r, (validate self data).2 = Ok r.
Proof.
  rewrite validate_first_failure.
  destruct (_get_field_value self data) as [v|e]; [|left; reflexivity].
  change checks_in_order
    with ([check_missing; check_empty; check_upper_limit; check_lower_limit;
           check_values; check_equals_value]
            ++ [check_increment; check_timestamp]).
  destruct (first_failure_keeps_prefix _ [check_increment; check_timestamp]
              self v six_keep_field) as [E|[E _]]; [rewrite E | left; exact E].
  unfold first_failure, check_increment, check_timestamp, stateless.
  destruct (increment self) as [step|] eqn:Einc.
  - destruct (previous_value self) as [previous|].
    + destruct (Py.add_int previous step) as [expected|]; [|left; reflexivity].
      destruct (Py.ne_number v expected).
      * destruct (msg_successor self v previous step); [|left; reflexivity].
        right. exists v. simpl. eauto 10.
      * left. simpl.
        destruct (String.eqb (type self) TYPE_TIMESTAMP); [|reflexivity].
        destruct (dateutil_parse v); reflexivity.
    + right. exists v. simpl.
      destruct (String.eqb (type self) TYPE_TIMESTAMP); [|eauto 10].
      destruct (dateutil_parse v); eauto 10.
  - left. simpl.
    destruct (String.eqb (type self) TYPE_TIMESTAMP); [|reflexivity].
    destruct (dateutil_parse v); reflexivity.
Qed.

Lemma validate_raise_keeps_field (self : Field) (data : pyval) (e : exn) :
  (validate self data).2 = Raise e -> validate self data = (self, Raise e).
Proof.
  intros He.
  destruct (validate_state_cases self data) as [E|(v & _ & _ & _ & r & Hr)];
    [|congruence].
  destruct (validate self data) as [s r]. simpl in *. congruence.
Qed.

(** X17.  [validate] hands the field back as it was, or with the
    extracted value recorded, which it does only under an increment and
    only when it returns a result; a call that raises leaves the field as
    it was. *)
Theorem validate_state_change (self : Field) (data : pyval) :
  ((validate self data).1 = self
   \/ exists v,
        _get_field_value self data = Ok v
        /\ is_Some (increment self)
        /\ (validate self data).1 = set_previous_value self v
        /\ exists r, (validate self data).2 = Ok r)
  /\ (forall e, (validate self data).2 = Raise e -> (validate self data).1 = self).
Proof.
  split; [apply validate_state_cases|].
  intros e He. rewrite (validate_raise_keeps_field _ _ _ He). reflexivity.
Qed.

(** X18.  When a field raises, the loop of [_validate] stops there: the
    fields before it are as their calls left them, this field and the
    fields after it are as they were. *)
Theorem validate_fields_stops (pre post pre' : list Field) (f : Field)
    (data : pyval) (validations : list FieldValidation) (e : exn) :
  validate_fields pre data = (pre', Ok validations) ->
  (validate f data).2 = Raise e ->
  validate_fields (pre ++ f :: post) data = (pre' ++ f :: post, Raise e).
Proof.
  intros Hpre Hf. apply validate_raise_keeps_field in Hf.
  revert pre' validations Hpre.
  induction pre as [|g pre IH]; intros pre' validations; simpl.
  - intros [= <- _]. rewrite Hf. reflexivity.
  - destruct (validate g data) as [g' [r|e0]]; [|discriminate].
    destruct (validate_fields pre data) as [pre1 [vs|e0]] eqn:Ep; [|discriminate].
    intros [= <- _]. rewrite (IH _ _ eq_refl). reflexivity.
Qed.

(** ** The queue *)

Lemma drain_acc (msg_queue : list string) :
  forall (self : TestCase) (acc : list RecordReport),
    drain self msg_queue acc
    = let '(self', rest, r) := drain self msg_queue [] in
      (self', rest, res <- r ;; Ok (acc ++ res)).
Proof.
  induction msg_queue as [|msg msg_queue IH]; intros self acc; simpl.
  - rewrite app_nil_r. reflexivity.
  - destruct (json_loads msg) as [current_msg|e]; [|reflexivity].
    destruct (record_id_of current_msg) as [record_id|e]; [|reflexivity].
    destruct (_validate self current_msg) as [self' [vs|e]]; [|reflexivity].
    rewrite (IH self' (acc ++ _)), (IH self' [_]).
    destruct (drain self' msg_queue []) as [[s q] [res|e]]; simpl;
      [rewrite <- app_assoc|]; reflexivity.
Qed.

Lemma drain_app (q1 q2 : list string) :
  forall (self : TestCase) (acc : list RecordReport),
    drain self (q1 ++ q2) acc
    = match drain self q1 acc with
      | (self1, _, Ok res) => drain self1 q2 res
      | (self1, rest, Raise e) => (self1, rest ++ q2, Raise e)
      end.
Proof.
  induction q1 as [|msg q1 IH]; intros self acc; simpl.
  - reflexivity.
  - destruct (json_loads msg) as [current_msg|e]; [|reflexivity].
    destruct (record_id_of current_msg) as [record_id|e]; [|reflexivity].
    destruct (_validate self current_msg) as [self' [vs|e]]; [|reflexivity].
    apply IH.
Qed.

(** X19.  Validating two queues one after the other on the same test
    case gives the reports of validating them as one queue; when the
    first part raises, the second part stays in the queue. *)
Theorem validate_queue_app (self : TestCase) (q1 q2 : list string) :
  validate_queue self (q1 ++ q2)
  = match validate_queue self q1 with
    | (self1, _, Ok report1) =>
        match validate_queue self1 q2 with
        | (self2, rest, Ok report2) =>
            (self2, rest, Ok (mkBatchReport (Results report1 ++ Results report2)))
        | (self2, rest, Raise e) => (self2, rest, Raise e)
        end
    | (self1, rest, Raise e) => (self1, rest ++ q2, Raise e)
    end.
Proof.
  unfold validate_queue. rewrite drain_app.
  destruct (drain self q1 []) as [[self1 rest1] [res1|e]]; [|reflexivity].
  rewrite drain_acc.
  destruct (drain self1 q2 []) as [[self2 rest2] [res2|e]]; reflexivity.
Qed.

Lemma drain_Raise (msg_queue : list string) :
  forall (self self' : TestCase) (acc : list RecordReport) (rest : list string)
         (e : exn),
    drain self msg_queue acc = (self', rest, Raise e) ->
    exists before msg self0 res,
      msg_queue = before ++ msg :: rest
      /\ drain self before acc = (self0, [], Ok res)
      /\ drain self0 [msg] [] = (self', [], Raise e).
Proof.
  induction msg_queue as [|msg msg_queue IH]; intros self self' acc rest e; simpl.
  - discriminate.
  - destruct (json_loads msg) as [current_msg|e0] eqn:Ej.
    2:{ intros [= <- <- <-]. exists [], msg, self, acc. simpl. rewrite Ej. auto. }
    destruct (record_id_of current_msg) as [record_id|e0] eqn:Ei.
    2:{ intros [= <- <- <-]. exists [], msg, self, acc. simpl. rewrite Ej, Ei. auto. }
    destruct (_validate self current_msg) as [self1 [vs|e0]] eqn:Ev.
    2:{ intros [= <- <- <-]. exists [], msg, self, acc. simpl.
        rewrite Ej, Ei, Ev. auto. }
    intros Hd.
    destruct (IH _ _ _ _ _ Hd) as (before & m & self0 & res & -> & Hb & Hm).
    exists (msg :: before), m, self0, res. simpl. rewrite Ej, Ei, Ev. auto.
Qed.

(** X20.  When [validate_queue] raises, the queue is left with the
    records after the one that raised; the records before it had been
    validated without an exception, and the exception is that of the
    record alone. *)
Theorem validate_queue_stops_at_first_failure (self self' : TestCase)
    (msg_queue rest : list string) (e : exn) :
  validate_queue self msg_queue = (self', rest, Raise e) ->
  exists before msg self0 report,
    msg_queue = before ++ msg :: rest
    /\ validate_queue self before = (self0, [], Ok report)
    /\ validate_queue self0 [msg] = (self', [], Raise e).
Proof.
  unfold validate_queue.
  destruct (drain self msg_queue []) as [[s q] [res|e0]] eqn:Ed; [discriminate|].
  intros [= <- <- <-].
  destruct (drain_Raise _ _ _ _ _ _ Ed) as (before & msg & self0 & res & -> & Hb & Hm).
  exists before, msg, self0, (mkBatchReport res). rewrite Hb, Hm. auto.
Qed.

Lemma getitem_Ok (v : pyval) (key : string) (x : pyval) :
  Py.getitem v key = Ok x
  <-> exists entries, v = PDict entries /\ Py.dict_lookup entries key = Some x.
Proof.
  destruct v; simpl; try (split; [discriminate | intros (? & [=] & _)]).
  destruct (Py.dict_lookup entries key) as [y|] eqn:E; split.
  - intros [= ->]. eauto.
  - intros (en & [= <-] & Hl). congruence.
  - discriminate.
  - intros (en & [= <-] & Hl). congruence.
Qed.

Lemma getitem_Raise (v : pyval) (key : string) (e : exn) :
  Py.getitem v key = Raise e -> e = KeyError \/ e = TypeError.
Proof.
  destruct v; simpl; try (intros [= <-]; auto).
  destruct (Py.dict_lookup entries key); [discriminate|]. intros [= <-]. auto.
Qed.

(** X21.  The identifier of a record is the text form of what three
    nested dicts hold under [metadata], [serialId] and [recordId]; any
    other record makes [validate_queue] raise [KeyError] or [TypeError]
    before a field is evaluated, the test case staying as it was. *)
Theorem record_identifier (self : TestCase) (msg : string) (rest : list string)
    (data : pyval) :
  json_loads msg = Ok data ->
  (forall record_id,
      record_id_of data = Ok record_id
      <-> exists top metadata serialId recordId,
            data = PDict top
            /\ Py.dict_lookup top "metadata" = Some (PDict metadata)
            /\ Py.dict_lookup metadata "serialId" = Some (PDict serialId)
            /\ Py.dict_lookup serialId "recordId" = Some recordId
            /\ record_id = Py.str recordId)
  /\ (forall e,
        record_id_of data = Raise e ->
        (e = KeyError \/ e = TypeError)
        /\ validate_queue self (msg :: rest) = (self, rest, Raise e)).
Proof.
  intros Ej. split.
  - intros record_id. unfold record_id_of. split.
    + destruct (Py.getitem data "metadata") as [m|] eqn:E1; simpl; [|discriminate].
      destruct (Py.getitem m "serialId") as [sid|] eqn:E2; simpl; [|discriminate].
      destruct (Py.getitem sid "recordId") as [rid|] eqn:E3; simpl; [|discriminate].
      intros [= <-].
      apply getitem_Ok in E1 as (top & -> & L1).
      apply getitem_Ok in E2 as (metadata & -> & L2).
      apply getitem_Ok in E3 as (serialId & -> & L3).
      exists top, metadata, serialId, rid. auto.
    + intros (top & metadata & serialId & rid & -> & L1 & L2 & L3 & ->).
      simpl. rewrite L1. simpl. rewrite L2. simpl. rewrite L3. reflexivity.
  - intros e Ee. split.
    + unfold record_id_of in Ee.
      destruct (Py.getitem data "metadata") as [m|] eqn:E1; simpl in Ee;
        [|injection Ee as <-; eapply getitem_Raise; exact E1].
      destruct (Py.getitem m "serialId") as [sid|] eqn:E2; simpl in Ee;
        [|injection Ee as <-; eapply getitem_Raise; exact E2].
      destruct (Py.getitem sid "recordId") as [rid|] eqn:E3; simpl in Ee;
        [discriminate|injection Ee as <-; eapply getitem_Raise; exact E3].
    + unfold validate_queue. simpl. rewrite Ej, Ee. reflexivity.
Qed.

Lemma drain_same_rule (msg_queue : list string) :
  forall (self : TestCase) (acc : list RecordReport),
    Forall2 same_rule (field_list self) (field_list (drain self msg_queue acc).1.1).
Proof.
  induction msg_queue as [|msg msg_queue IH]; intros self acc; simpl.
  - clear. induction (field_list self); constructor; [reflexivity | assumption].
  - assert (Hrefl : Forall2 same_rule (field_list self) (field_list self)).
    { clear. induction (field_list self); constructor; [reflexivity | assumption]. }
    destruct (json_loads msg) as [current_msg|e]; [|exact Hrefl].
    destruct (record_id_of current_msg) as [record_id|e]; [|exact Hrefl].
    unfold _validate.
    pose proof (validate_fields_same_rule (field_list self) current_msg) as Hs.
    destruct (validate_fields (field_list self) current_msg) as [fields [vs|e]];
      simpl in *; [|exact Hs].
    eapply Forall2_same_rule_trans; [exact Hs|].
    apply (IH (mkTestCase fields)).
Qed.

(** X22.  Whatever the queue and the outcome, [validate_queue] leaves
    the test case with the same rules in the same order: only recorded
    values change. *)
Theorem validate_queue_keeps_rules (self : TestCase) (msg_queue : list string) :
  Forall2 same_rule (field_list self)
          (field_list (validate_queue self msg_queue).1.1)
  /\ map path (field_list (validate_queue self msg_queue).1.1)
     = map path (field_list self).
Proof.
  assert (Hs : Forall2 same_rule (field_list self)
                 (field_list (validate_queue self msg_queue).1.1)).
  { unfold validate_queue. pose proof (drain_same_rule msg_queue self []) as Hd.
    destruct (drain self msg_queue []) as [[s q] [res|e]]; exact Hd. }
  split; [exact Hs|].
  induction Hs as [|a b la lb Hab _ IH]; simpl; [reflexivity|].
  rewrite IH. f_equal. symmetry. apply same_rule_attrs. exact Hab.
Qed.

Lemma validate_fields_no_increment (fields : list Field) (data : pyval) :
  Forall (fun f => increment f = None) fields ->
  (validate_fields fields data).1 = fields.
Proof.
  intros Hall. induction Hall as [|f fields Hf _ IH]; simpl; [reflexivity|].
  rewrite (validate_ignores_state _ _ Hf).
  destruct ((validate (with_previous_value f None) data).2) as [r|e];
    [|reflexivity].
  destruct (validate_fields fields data) as [fields' [vs|e]]; simpl in *;
    rewrite IH; reflexivity.
Qed.

Lemma drain_no_increment_Ok (self : TestCase) (msg_queue : list string) :
  Forall (fun f => increment f = None) (field_list self) ->
  forall (acc res : list RecordReport) (self' : TestCase) (rest : list string),
    drain self msg_queue acc = (self', rest, Ok res) ->
    exists entries,
      res = acc ++ entries
      /\ Forall2 (fun msg entry => drain self [msg] [] = (self, [], Ok [entry]))
                 msg_queue entries.
Proof.
  intros Hall. induction msg_queue as [|msg msg_queue IH];
    intros acc res self' rest; simpl.
  - intros [= _ _ <-]. exists []. rewrite app_nil_r. split; [reflexivity | constructor].
  - destruct (json_loads msg) as [current_msg|e] eqn:Ej; [|discriminate].
    destruct (record_id_of current_msg) as [record_id|e] eqn:Ei; [|discriminate].
    unfold _validate.
    pose proof (validate_fields_no_increment _ current_msg Hall) as Hf.
    destruct (validate_fields (field_list self) current_msg) as [fields [vs|e]]
      eqn:Ev; [|discriminate].
    simpl in Hf. subst fields.
    replace (mkTestCase (field_list self)) with self by (destruct self; reflexivity).
    intros Hd. apply IH in Hd as (entries & -> & Hrest).
    eexists (_ :: entries). split; [rewrite <- app_assoc; reflexivity|].
    constructor; [|exact Hrest].
    simpl. rewrite Ej, Ei. unfold _validate. rewrite Ev.
    destruct self; reflexivity.
Qed.

Lemma drain_no_increment_run (self : TestCase) (msg_queue : list string)
    (entries : list RecordReport) :
  Forall2 (fun msg entry => drain self [msg] [] = (self, [], Ok [entry]))
          msg_queue entries ->
  forall acc, drain self msg_queue acc = (self, [], Ok (acc ++ entries)).
Proof.
  intros Hall. induction Hall as [|msg entry msg_queue entries Hm _ IH]; intros acc.
  - simpl. rewrite app_nil_r. reflexivity.
  - change (msg :: msg_queue) with ([msg] ++ msg_queue).
    rewrite drain_app, (drain_acc [msg]), Hm. simpl.
    rewrite IH, <- app_assoc. reflexivity.
Qed.

Lemma Forall2_permuted {A B} (R : A -> B -> Prop) (l l' : list A) (k : list B) :
  l ≡ₚ l' -> Forall2 R l k -> exists k', k ≡ₚ k' /\ Forall2 R l' k'.
Proof.
  intros Hp. revert k.
  induction Hp as [|x l l' _ IH|x y l|l l' l'' _ IH1 _ IH2]; intros k Hf.
  - inversion Hf; subst. exists []. split; constructor.
  - inversion Hf as [|? b ? k0 Hb Hk]; subst.
    destruct (IH _ Hk) as (k' & Hpk & Hfk).
    exists (b :: k'). split; [constructor; exact Hpk | constructor; assumption].
  - inversion Hf as [|? b ? k0 Hb Hk]; subst.
    inversion Hk as [|? c ? k1 Hc Hk1]; subst.
    exists (c :: b :: k1). split; [apply perm_swap | repeat constructor; assumption].
  - destruct (IH1 _ Hf) as (k' & Hp1 & Hf1).
    destruct (IH2 _ Hf1) as (k'' & Hp2 & Hf2).
    exists k''. split; [etransitivity; eassumption | exact Hf2].
Qed.

Lemma report_alone_functional (self : TestCase) (msg : string)
    (entry entry' : RecordReport) :
  report_alone self msg entry -> report_alone self msg entry' -> entry = entry'.
Proof. unfold report_alone. intros -> [= ->]. reflexivity. Qed.

Lemma report_alone_drain (self : TestCase) (msg_queue : list string)
    (entries : list RecordReport) :
  Forall2 (fun msg entry => drain self [msg] [] = (self, [], Ok [entry]))
          msg_queue entries ->
  Forall2 (report_alone self) msg_queue entries.
Proof.
  intros Hf. eapply Forall2_impl; [exact Hf|].
  intros msg entry E. unfold report_alone, validate_queue. rewrite E. reflexivity.
Qed.

(** X23.  For a test case without an increment, a queue that returns a
    report leaves the test case as it was, and the report holds, at the
    place of each record, the report of that record validated on its
    own; so does the report of any reordering of the queue.  A record
    therefore has the same report wherever it stands: the reports are
    reordered as the records are. *)
Theorem order_is_irrelevant_without_increment (self self' : TestCase)
    (msg_queue msg_queue' rest : list string) (report : BatchReport) :
  Forall (fun f => increment f = None) (field_list self) ->
  msg_queue ≡ₚ msg_queue' ->
  validate_queue self msg_queue = (self', rest, Ok report) ->
  self' = self
  /\ Forall2 (report_alone self) msg_queue (Results report)
  /\ exists report',
       validate_queue self msg_queue' = (self, [], Ok report')
       /\ Forall2 (report_alone self) msg_queue' (Results report')
       /\ Results report ≡ₚ Results report'
       /\ forall (i j : nat) (msg : string),
            msg_queue !! i = Some msg ->
            msg_queue' !! j = Some msg ->
            Results report !! i = Results report' !! j.
Proof.
  intros Hall Hp. unfold validate_queue.
  destruct (drain self msg_queue []) as [[s q] [res|e]] eqn:Ed; [|discriminate].
  intros [= <- <- <-].
  destruct (drain_no_increment_Ok _ _ Hall _ _ _ _ Ed) as (entries & -> & Hf).
  pose proof (drain_no_increment_run _ _ _ Hf []) as Hrun.
  rewrite Hrun in Ed. injection Ed as <- _.
  split; [reflexivity|].
  destruct (Forall2_permuted _ _ _ _ Hp Hf) as (entries' & Hpe & Hf').
  rewrite (drain_no_increment_run _ _ _ Hf' []).
  apply report_alone_drain in Hf, Hf'. simpl.
  split; [exact Hf|].
  eexists. split; [reflexivity|]. simpl.
  split; [exact Hf'|]. split; [exact Hpe|].
  intros i j msg Hi Hj.
  destruct (Forall2_lookup_l _ _ _ _ _ Hf Hi) as (r & -> & Hr).
  destruct (Forall2_lookup_l _ _ _ _ _ Hf' Hj) as (r' & -> & Hr').
  f_equal. eapply report_alone_functional; eassumption.
Qed.

End FurtherProperties.

(** * The further properties at concrete inputs *)

Section FurtherExamples.
#[local] Existing Instance Example.host.
Import Example Sample.

(** X1 at a section without [Path] and at one without [Type]. *)
Lemma Field_init_requires_Path_and_Type_witness :
  Field_init no_path_section
  = Raise (ValidatorException
             "Missing required configuration property 'Path' for field '<Section: rule>'")
  /\ Field_init no_type_section
     = Raise (ValidatorException
                "Missing required configuration property 'Type' for field '<Section: rule>'").
Proof.
  split.
  - etransitivity;
      [ apply (proj1 (Field_init_requires_Path_and_Type no_path_section));
        vm_compute; reflexivity
      | vm_compute; reflexivity ].
  - etransitivity;
      [ apply (proj2 (Field_init_requires_Path_and_Type no_type_section));
        vm_compute; [eauto | reflexivity]
      | vm_compute; reflexivity ].
Defined.

(** X2 at the section with an increment. *)
Lemma Field_init_Ok_witness :
  Field_init increment_section = Ok increment_rule.
Proof.
  apply (proj2 (Field_init_Ok increment_section increment_rule)).
  repeat split; vm_compute; try reflexivity; exact I.
Defined.

(** X3 at a list that is not closed and at an increment spelled out. *)
Lemma bad_Values_or_Increment_witness :
  Field_init bad_values_section = Raise JSONDecodeError
  /\ Field_init bad_increment_section = Raise ValueError.
Proof.
  split.
  - apply (proj1 (bad_Values_or_Increment bad_values_section None None
                    ltac:(vm_compute; eauto) ltac:(vm_compute; eauto)
                    ltac:(vm_compute; exact I) ltac:(vm_compute; exact I))
                 "[oops"); vm_compute; reflexivity.
  - apply (proj2 (bad_Values_or_Increment bad_increment_section None None
                    ltac:(vm_compute; eauto) ltac:(vm_compute; eauto)
                    ltac:(vm_compute; exact I) ltac:(vm_compute; exact I))
                 "one" ValueError None); vm_compute; first [reflexivity | exact I].
Defined.

(** X4 at three sections, and at three sections with a bad one in the
    middle. *)
Lemma TestCase_init_fields_witness :
  TestCase_init sections
  = Ok (mkTestCase [limit_rule (Some 100) None; increment_rule])
  /\ exists before key options after tc,
       bad_sections = before ++ (key, options) :: after
       /\ key <> "_settings"
       /\ Field_init options = Raise InvalidOperation
       /\ TestCase_init before = Ok tc.
Proof.
  split.
  - apply (proj1 (TestCase_init_fields sections)).
    repeat constructor; vm_compute; reflexivity.
  - apply (proj2 (TestCase_init_fields bad_sections)).
    vm_compute. reflexivity.
Defined.

(** X5 at the path [payload.speed]. *)
Lemma extraction_round_trip_witness :
  _get_field_value (limit_rule None None) (nest ["payload"; "speed"] (PInt 12))
  = Ok (PInt 12).
Proof.
  apply (extraction_round_trip (limit_rule None None) ["payload"; "speed"]);
    [discriminate | repeat constructor | reflexivity].
Defined.

(** X6 at a speed that is [None] and at one that is the empty text, under
    an upper limit. *)
Lemma null_and_empty_leaf_witness :
  validate (limit_rule (Some 100) None) (message 1 (speed PNone))
  = (limit_rule (Some 100) None,
     Ok (mkValidationResult false "Field 'payload.speed' missing"))
  /\ validate (limit_rule (Some 100) None) (message 1 (speed (PStr "")))
     = (limit_rule (Some 100) None,
        Ok (mkValidationResult false "Field 'payload.speed' empty")).
Proof.
  split.
  - apply (proj1 (null_and_empty_leaf (limit_rule (Some 100) None)
                    (message 1 (speed PNone)) ["payload"] "speed"
                    [("speed", PNone)] eq_refl eq_refl)). reflexivity.
  - apply (proj2 (null_and_empty_leaf (limit_rule (Some 100) None)
                    (message 1 (speed (PStr ""))) ["payload"] "speed"
                    [("speed", PStr "")] eq_refl eq_refl)). reflexivity.
Defined.

(** X7 at the text [fast] under the type [decimal]. *)
Lemma unconstrained_rule_witness :
  validate (limit_rule None None) (message 8 (speed (PStr "fast")))
  = (limit_rule None None, Ok (mkValidationResult true "")).
Proof.
  apply (proj2 (unconstrained_rule (limit_rule None None)
                  (message 8 (speed (PStr "fast"))) (PStr "fast")
                  eq_refl ltac:(discriminate) ltac:(discriminate)
                  eq_refl eq_refl eq_refl eq_refl eq_refl)).
  discriminate.
Defined.

(** X8 at the types [decimal] and [string]. *)
Lemma type_matters_only_for_timestamp_witness :
  validate (with_type (limit_rule (Some 100) None) "string")
           (message 1 (speed (PInt 101)))
  = (with_type (limit_rule (Some 100) None) "string",
     Ok (mkValidationResult false
           "Field 'payload.speed' value '101' is greater than upper limit '100'")).
Proof.
  rewrite (type_matters_only_for_timestamp (limit_rule (Some 100) None)
             (message 1 (speed (PInt 101))) "string");
    [reflexivity | discriminate | discriminate].
Defined.

(** X9 at the limits 10 and 100 and the value 5. *)
Lemma integer_within_limits_witness :
  validate (limit_rule (Some 100) (Some 10)) (message 1 (speed (PInt 5)))
  = (limit_rule (Some 100) (Some 10),
     Ok (mkValidationResult false
           "Field 'payload.speed' value '5' is less than lower limit '10'")).
Proof.
  rewrite (integer_within_limits (limit_rule (Some 100) (Some 10))
             (message 1 (speed (PInt 5))) 5 100 10);
    try reflexivity. discriminate.
Defined.

(** X10 at the value 100.9 and the limit 100: both are shown as 100. *)
Lemma limit_message_truncates_witness :
  validate (limit_rule (Some 100) None) (message 1 (speed (PStr "100.9")))
  = (limit_rule (Some 100) None,
     Ok (mkValidationResult false
           "Field 'payload.speed' value '100' is greater than upper limit '100'")).
Proof.
  apply (limit_message_truncates (limit_rule (Some 100) None)
           (message 1 (speed (PStr "100.9"))) (PStr "100.9")
           (Dec.Finite false 1009 (-1)) (Dec.of_Z 100) 100 100);
    try reflexivity; discriminate.
Defined.

(** X11 at the texts [NaN] and [Infinity]. *)
Lemma special_values_raise_witness :
  validate (limit_rule (Some 100) None) (message 1 (speed (PStr "NaN")))
  = (limit_rule (Some 100) None, Raise InvalidOperation)
  /\ validate (limit_rule (Some 100) None) (message 1 (speed (PStr "Infinity")))
     = (limit_rule (Some 100) None, Raise OverflowError).
Proof.
  split.
  - apply (proj1 (special_values_raise (limit_rule (Some 100) None)
                    (message 1 (speed (PStr "NaN"))) (PStr "NaN")
                    (Dec.NaN false false 0) (Dec.of_Z 100)
                    eq_refl ltac:(discriminate) ltac:(discriminate)
                    eq_refl eq_refl)).
    left. eauto.
  - apply (proj2 (special_values_raise (limit_rule (Some 100) None)
                    (message 1 (speed (PStr "Infinity"))) (PStr "Infinity")
                    (Dec.Infinity false) (Dec.of_Z 100)
                    eq_refl ltac:(discriminate) ltac:(discriminate)
                    eq_refl eq_refl)); [reflexivity|].
    unfold Dec.of_Z. eauto.
Defined.

(** X12 at the values A and B and the text C. *)
Lemma values_list_membership_witness :
  exists r,
    validate (values_rule (PList [PStr "A"; PStr "B"]))
             (message 1 (speed (PStr "C")))
    = (values_rule (PList [PStr "A"; PStr "B"]), Ok r)
    /\ (valid r = false ->
        error r
        = "Field 'payload.speed' value 'C' not in list of known values: [A, B]").
Proof.
  destruct (values_list_membership (values_rule (PList [PStr "A"; PStr "B"]))
              (message 1 (speed (PStr "C"))) (PStr "C") [PStr "A"; PStr "B"])
    as (r & E & _ & Hmsg); try reflexivity; try discriminate.
  exists r. split; [exact E | exact Hmsg].
Defined.

(** X13 at [Values = 5]. *)
Lemma values_not_a_container_witness :
  validate (values_rule (PInt 5)) (message 1 (speed (PInt 5)))
  = (values_rule (PInt 5), Raise TypeError).
Proof.
  apply (values_not_a_container (values_rule (PInt 5))
           (message 1 (speed (PInt 5))) (PInt 5) (PInt 5));
    try reflexivity; discriminate.
Defined.

(** X14 at the expected text 5 and the number 5. *)
Lemma equals_value_on_text_form_witness :
  exists r,
    validate (equals_rule "5") (message 1 (speed (PInt 5)))
    = (equals_rule "5", Ok r)
    /\ (valid r = true <-> "5" = "5").
Proof.
  destruct (equals_value_on_text_form (equals_rule "5")
              (message 1 (speed (PInt 5))) (PInt 5) "5")
    as (r & E & Hv & _); try reflexivity; try discriminate.
  exists r. split; [exact E | exact Hv].
Defined.

(** X15 at the recorded value 5 and the value 7. *)
Lemma increment_on_integers_witness :
  validate (sequence_rule (Some (PInt 5))) (message 1 (speed (PInt 7)))
  = (sequence_rule (Some (PInt 7)),
     Ok (mkValidationResult false
           "Field 'payload.speed' successor value '7' did not match expected value '6', increment '1'")).
Proof.
  rewrite (proj2 (increment_on_integers (sequence_rule (Some (PInt 5)))
                    (message 1 (speed (PInt 7))) 7 1
                    eq_refl eq_refl eq_refl eq_refl eq_refl eq_refl
                    ltac:(discriminate)) 5 eq_refl).
  reflexivity.
Defined.

(** X16 at the texts [fast], then the numbers 12 and 13. *)
Lemma text_baseline_raises_ever_after_witness :
  feed (sequence_rule None)
       [message 8 (speed (PStr "fast")); message 1 (speed (PInt 12));
        message 2 (speed (PInt 13))]
  = (sequence_rule (Some (PStr "fast")),
     [Ok (mkValidationResult true ""); Raise TypeError; Raise TypeError]).
Proof.
  apply (text_baseline_raises_ever_after (sequence_rule None)
           (message 8 (speed (PStr "fast"))) "fast"
           [message 1 (speed (PInt 12)); message 2 (speed (PInt 13))]);
    try reflexivity; try discriminate; eauto.
  repeat constructor; eexists; (split; [reflexivity|]); split; discriminate.
Defined.

(** X18 at a field that raises between two others. *)
Lemma validate_fields_stops_witness :
  validate_fields
    [sequence_rule None; limit_rule (Some 100) None; sequence_rule None]
    (message 8 (speed (PStr "fast")))
  = ([sequence_rule (Some (PStr "fast")); limit_rule (Some 100) None;
      sequence_rule None],
     Raise InvalidOperation).
Proof.
  apply (validate_fields_stops [sequence_rule None] [sequence_rule None]
           [sequence_rule (Some (PStr "fast"))] (limit_rule (Some 100) None)
           (message 8 (speed (PStr "fast")))
           [{| Field_ := "payload.speed"; Valid := true; Details := "" |}]);
    reflexivity.
Defined.

(** X20 at a queue whose second record raises. *)
Lemma validate_queue_stops_at_first_failure_witness :
  validate_queue speed_case
    [dumps (message 1 (speed (PInt 12)));
     dumps (message 8 (speed (PStr "fast")));
     dumps (message 2 (speed (PInt 13)))]
  = (speed_case, [dumps (message 2 (speed (PInt 13)))], Raise InvalidOperation)
  /\ exists before msg self0 report,
       [dumps (message 1 (speed (PInt 12)));
        dumps (message 8 (speed (PStr "fast")));
        dumps (message 2 (speed (PInt 13)))]
       = before ++ msg :: [dumps (message 2 (speed (PInt 13)))]
       /\ validate_queue speed_case before = (self0, [], Ok report)
       /\ validate_queue self0 [msg] = (speed_case, [], Raise InvalidOperation).
Proof.
  assert (E : validate_queue speed_case
                [dumps (message 1 (speed (PInt 12)));
                 dumps (message 8 (speed (PStr "fast")));
                 dumps (message 2 (speed (PInt 13)))]
              = (speed_case, [dumps (message 2 (speed (PInt 13)))],
                 Raise InvalidOperation)) by (vm_compute; reflexivity).
  split; [exact E|].
  apply (validate_queue_stops_at_first_failure _ _ _ _ _ E).
Defined.

(** X21 at the empty record. *)
Lemma record_identifier_witness :
  json_loads (dumps (PDict [])) = Ok (PDict [])
  /\ validate_queue speed_case [dumps (PDict []); dumps (message 1 (speed (PInt 12)))]
     = (speed_case, [dumps (message 1 (speed (PInt 12)))], Raise KeyError).
Proof.
  assert (E : json_loads (dumps (PDict [])) = Ok (PDict []))
    by (vm_compute; reflexivity).
  split; [exact E|].
  apply (proj2 (record_identifier speed_case (dumps (PDict []))
                  [dumps (message 1 (speed (PInt 12)))] (PDict []) E) KeyError).
  reflexivity.
Defined.

(** X23 at a queue of two records and the two in the other order: the
    report of record 1 stands second where the record stands second. *)
Lemma order_is_irrelevant_without_increment_witness :
  exists report',
    validate_queue speed_case
      [dumps (message 2 (speed (PInt 13))); dumps (message 1 (speed (PInt 12)))]
    = (speed_case, [], Ok report')
    /\ Forall2 (report_alone speed_case)
         [dumps (message 2 (speed (PInt 13))); dumps (message 1 (speed (PInt 12)))]
         (Results report')
    /\ Results report' !! 1%nat
       = Some {| RecordID := "1";
                 Validations := [{| Field_ := "payload.speed"; Valid := true;
                                    Details := "" |}] |}.
Proof.
  destruct (order_is_irrelevant_without_increment speed_case speed_case
           [dumps (message 1 (speed (PInt 12))); dumps (message 2 (speed (PInt 13)))]
           [dumps (message 2 (speed (PInt 13))); dumps (message 1 (speed (PInt 12)))]
           []
           (mkBatchReport
              [ {| RecordID := "1";
                   Validations := [{| Field_ := "payload.speed"; Valid := true;
                                      Details := "" |}] |};
                {| RecordID := "2";
                   Validations := [{| Field_ := "payload.speed"; Valid := true;
                                      Details := "" |}] |} ]))
    as (_ & _ & report' & E & Hf & _ & Hi).
  - repeat constructor.
  - apply perm_swap.
  - vm_compute. reflexivity.
  - exists report'. split; [exact E|]. split; [exact Hf|].
    symmetry. apply (Hi 0%nat 1%nat (dumps (message 1 (speed (PInt 12)))));
      reflexivity.
Defined.

End FurtherExamples.
